(** * SEO scorer: the scoring engine of [src/app/page.tsx]

    A shallow embedding of the four functions that carry the domain logic of
    the page component [Home]:

    - [calculateSEOMetrics]    (page.tsx, lines 74-141)
    - [generateRecommendations] (page.tsx, lines 143-187)
    - [calculateSeoScore]      (page.tsx, lines 189-202)
    - [getOverallStatus]       (page.tsx, lines 204-208)

    Conventions of the embedding.

    - A JavaScript [number] that is an integer by construction (positions,
      counts, [Math.round] results, string lengths) is a [Z]; every other
      number is a rational [Q], the value of a double.
    - Where the page computes in doubles and the result need not be exact
      (the two review scores, the sum and the mean of the sub-scores, the
      simulated draws, the arcs of the ring) each operation is the exact
      result rounded to the nearest double, ties to even, as IEEE 754
      defines it: [Double.add], [Double.mul], [Double.div].  What is
      written without rounding is exact in doubles or rounds to the same
      integer: the counts times 10, the difference [100 - googlePosition]
      and the share of the platforms ([score_api_exact]), the score of the
      length ([name_score_in_doubles_exact]).  Infinities and NaN are not
      part of the model; [Double] agrees with the binary64 of the standard
      library where the two are compared ([round_agrees],
      [tie_in_binary64]).
    - A JavaScript string is a [string]: one [ascii] per code unit, so the
      model covers the code units 0..255.
    - The awaited promise of [fetchSEOData] is its outcome: resolved with the
      data or rejected with a reason.  A [throw] is the [Throw] constructor
      of [Completion].
    - The React state of [Home] is a record that the handlers pass along. *)

From Stdlib Require Import ZArith QArith Qround Qminmax Qabs Qpower Lia Lqa.
From Stdlib Require Import List String Ascii Bool DecimalString.
From Stdlib Require Import Floats.SpecFloat.
Import ListNotations.

Local Open Scope string_scope.

(** ** JavaScript primitives used by the page *)

Module JS.

(** [s.length] *)
Definition length (s : string) : Z := Z.of_nat (String.length s).

(** [String.prototype.toLowerCase] on one code unit below 256: the letters
    A-Z and the Latin-1 capitals (all of 0xC0-0xDE but the sign 0xD7) move
    up by 32; everything else stays. *)
Definition toLowerCase_unit (c : ascii) : ascii :=
  let n := N_of_ascii c in
  if ((65 <=? n) && (n <=? 90) ||
      (192 <=? n) && (n <=? 222) && negb (n =? 215))%N
  then ascii_of_N (n + 32)
  else c.

Fixpoint toLowerCase (s : string) : string :=
  match s with
  | EmptyString => EmptyString
  | String c rest => String (toLowerCase_unit c) (toLowerCase rest)
  end.

(** [s.split(sep)] for a separator of one code unit.  The empty string
    splits into one empty piece; every separator closes a piece, also an
    empty one. *)
Fixpoint split (sep : ascii) (s : string) : list string :=
  match s with
  | EmptyString => [EmptyString]
  | String c rest =>
      if Ascii.eqb c sep then EmptyString :: split sep rest
      else match split sep rest with
           | piece :: pieces => String c piece :: pieces
           | [] => [String c EmptyString]
           end
  end.

(** [arr.length] *)
Definition size {A : Type} (arr : list A) : Z := Z.of_nat (List.length arr).

(** [arr.join(sep)] on an array of strings. *)
Fixpoint join (sep : string) (arr : list string) : string :=
  match arr with
  | [] => EmptyString
  | [x] => x
  | x :: rest => x ++ sep ++ join sep rest
  end.

(** [Math.round]: the nearest integer, a tie going up. *)
Definition Math_round (x : Q) : Z := Qfloor (x + (1 # 2)).

Definition Math_min (x y : Q) : Q := Qmin x y.
Definition Math_max (x y : Q) : Q := Qmax x y.

(** [x < y] on numbers, as a test. *)
Definition ltb (x y : Q) : bool := negb (Qle_bool y x).

(** An integer inside a template literal: its decimal digits, which is what
    JavaScript prints for every integer below 10^21 in size. *)
Definition show (z : Z) : string := NilZero.string_of_int (Z.to_int z).

(** The result of a call that may throw. *)
Inductive Completion (A : Type) : Type :=
| Return (a : A)
| Throw (message : string).
Arguments Return {A} a.
Arguments Throw {A} message.

(** The outcome of an awaited promise. *)
Inductive Settled (A : Type) : Type :=
| Resolved (a : A)
| Rejected (reason : string).
Arguments Resolved {A} a.
Arguments Rejected {A} reason.

End JS.

Import JS.

(** ** Doubles *)

(** The arithmetic of IEEE 754 binary64 on the values of finite doubles: an
    operation returns the exact result rounded to the nearest double, a tie
    going to the double with the even significand. *)
Module Double.

(** The binade of a number that is not 0: the [e] with
    [2 ^ e <= |x| < 2 ^ (e + 1)].  The difference of the two integer
    logarithms is [e] or [e + 1]. *)
Definition binade (x : Q) : Z :=
  let guess := (Z.log2 (Z.abs (Qnum x)) - Z.log2 (Zpos (Qden x)))%Z in
  if Qle_bool (2 ^ guess) (Qabs x) then guess else (guess - 1)%Z.

(** The nearest integer, a tie going to the even one. *)
Definition nearest_even (y : Q) : Z :=
  let f := Qfloor y in
  match Qcompare (y - inject_Z f) (1 # 2) with
  | Lt => f
  | Gt => (f + 1)%Z
  | Eq => if Z.even f then f else (f + 1)%Z
  end.

(** The number of binary places of the doubles around [x]: 52 below the
    binade, and 1074 for the subnormal numbers. *)
Definition places (x : Q) : Z := (52 - Z.max (binade x) (-1022))%Z.

(** The nearest double. *)
Definition round (x : Q) : Q :=
  if Qeq_bool x 0 then 0
  else inject_Z (nearest_even (x * 2 ^ places x)) * 2 ^ (- places x).

(** [x + y], [x * y] and [x / y] on doubles. *)
Definition add (x y : Q) : Q := round (x + y).
Definition mul (x y : Q) : Q := round (x * y).
Definition div (x y : Q) : Q := round (x / y).

(** A number that is the value of a double. *)
Definition is_double (x : Q) : Prop := round x == x.

End Double.

(** The binary64 operations of the standard library's specification of
    floating-point numbers, to compare [Double] with. *)
Module Binary64.

Definition of_Z (z : Z) : spec_float := binary_normalize 53 1024 z 0 false.
Definition add (x y : spec_float) : spec_float := SFadd 53 1024 x y.
Definition mul (x y : spec_float) : spec_float := SFmul 53 1024 x y.
Definition div (x y : spec_float) : spec_float := SFdiv 53 1024 x y.

(** The value of a finite number. *)
Definition value (f : spec_float) : Q :=
  match f with
  | S754_finite s m e =>
      (if s then - inject_Z (Zpos m) else inject_Z (Zpos m)) * 2 ^ e
  | _ => 0
  end.

(** The computation of the page on the signals of [tie_api], the name and
    the address of the sample: the two review scores, the sum and the
    mean. *)
Definition tie_localSEO : spec_float :=
  let avgRating := div (add (of_Z 3) (div (of_Z 33) (of_Z 10))) (of_Z 2) in
  let totalReviews := add (of_Z 0) (of_Z 10) in
  add (mul avgRating (of_Z 10)) (div totalReviews (of_Z 10)).

Definition tie_onlineReviews : spec_float :=
  add (mul (div (of_Z 3) (of_Z 5)) (of_Z 50))
    (mul (div (div (of_Z 33) (of_Z 10)) (of_Z 5)) (of_Z 50)).

Definition tie_mean : spec_float :=
  div
    (fold_left add
       [ of_Z 30; of_Z 40; of_Z 30; of_Z 52; of_Z 50; tie_localSEO;
         tie_onlineReviews ] (of_Z 0))
    (of_Z 7).

End Binary64.

(** ** Data model *)

(** The value [fetchSEOData] resolves with (page.tsx, lines 47-62). *)
Module Api.

Record SearchRanking := {
  googlePosition : Z;
  monthlySearches : Z;
  competitorRanks : list Z
}.

(** [exists] is a keyword of Rocq, hence the underscore. *)
Record Platform := {
  exists_ : bool;
  followers : Z
}.

Record SocialMedia := {
  facebook : Platform;
  instagram : Platform;
  twitter : Platform;
  linkedin : Platform
}.

Record Review := {
  rating : Q;
  count : Z
}.

Record Reviews := {
  google : Review;
  yelp : Review
}.

Record Data := {
  searchRanking : SearchRanking;
  socialMedia : SocialMedia;
  reviews : Reviews
}.

(** [socialMedia[platform]], an object indexed by a string key. *)
Definition get (sm : SocialMedia) (platform : string) : option Platform :=
  if String.eqb platform "facebook" then Some (facebook sm)
  else if String.eqb platform "instagram" then Some (instagram sm)
  else if String.eqb platform "twitter" then Some (twitter sm)
  else if String.eqb platform "linkedin" then Some (linkedin sm)
  else None.

(** [Object.entries(socialMedia)], in the order the keys were written. *)
Definition entries (sm : SocialMedia) : list (string * Platform) :=
  [ ("facebook", facebook sm); ("instagram", instagram sm);
    ("twitter", twitter sm); ("linkedin", linkedin sm) ].

End Api.

(** The [details] object of [SeoScore], called [score] while it is built. *)
Record Details := {
  nameLength : Q;
  addressCompleteness : Q;
  keywordOptimization : Q;
  googleRanking : Q;
  socialMediaPresence : Q;
  localSEO : Q;
  onlineReviews : Q
}.

(** [Object.values(score)]: the seven values in the order of the literal. *)
Definition Object_values (score : Details) : list Q :=
  [ nameLength score; addressCompleteness score; keywordOptimization score;
    googleRanking score; socialMediaPresence score; localSEO score;
    onlineReviews score ].

Record SearchData := {
  googleRank : Z;
  monthlySearches : Z;
  competitorRanking : list Z
}.

Record SeoScore := {
  total : Z;
  details : Details;
  searchData : SearchData;
  socialMedia : Api.SocialMedia;
  reviews : Api.Reviews
}.

Inductive Status := good | warning | poor.
Inductive Priority := high | medium | low.

Record Recommendation := {
  category : string;
  status : Status;
  message : string;
  improvement : string;
  priority : Priority
}.

(** The state of the component [Home] (page.tsx, lines 67-72). *)
Record HomeState := {
  _businessName : string;
  _businessAddress : string;
  seoScore : option SeoScore;
  recommendations : list Recommendation;
  isCalculating : bool;
  error : option string
}.


(** ** [calculateSEOMetrics] (page.tsx, lines 74-141) *)

Local Open Scope Q_scope.

(** The object literal [score] starts from (lines 79-87). *)
Definition score_init : Details :=
  {| nameLength := 0; addressCompleteness := 0; keywordOptimization := 0;
     googleRanking := 0; socialMediaPresence := 0; localSEO := 0;
     onlineReviews := 0 |}.

(** The assignments [score.field = v], one per field. *)
Definition set_nameLength (v : Q) (s : Details) : Details :=
  {| nameLength := v; addressCompleteness := addressCompleteness s;
     keywordOptimization := keywordOptimization s;
     googleRanking := googleRanking s;
     socialMediaPresence := socialMediaPresence s; localSEO := localSEO s;
     onlineReviews := onlineReviews s |}.

Definition set_addressCompleteness (v : Q) (s : Details) : Details :=
  {| nameLength := nameLength s; addressCompleteness := v;
     keywordOptimization := keywordOptimization s;
     googleRanking := googleRanking s;
     socialMediaPresence := socialMediaPresence s; localSEO := localSEO s;
     onlineReviews := onlineReviews s |}.

Definition set_keywordOptimization (v : Q) (s : Details) : Details :=
  {| nameLength := nameLength s; addressCompleteness := addressCompleteness s;
     keywordOptimization := v; googleRanking := googleRanking s;
     socialMediaPresence := socialMediaPresence s; localSEO := localSEO s;
     onlineReviews := onlineReviews s |}.

Definition set_googleRanking (v : Q) (s : Details) : Details :=
  {| nameLength := nameLength s; addressCompleteness := addressCompleteness s;
     keywordOptimization := keywordOptimization s; googleRanking := v;
     socialMediaPresence := socialMediaPresence s; localSEO := localSEO s;
     onlineReviews := onlineReviews s |}.

Definition set_socialMediaPresence (v : Q) (s : Details) : Details :=
  {| nameLength := nameLength s; addressCompleteness := addressCompleteness s;
     keywordOptimization := keywordOptimization s;
     googleRanking := googleRanking s; socialMediaPresence := v;
     localSEO := localSEO s; onlineReviews := onlineReviews s |}.

Definition set_localSEO (v : Q) (s : Details) : Details :=
  {| nameLength := nameLength s; addressCompleteness := addressCompleteness s;
     keywordOptimization := keywordOptimization s;
     googleRanking := googleRanking s;
     socialMediaPresence := socialMediaPresence s; localSEO := v;
     onlineReviews := onlineReviews s |}.

Definition set_onlineReviews (v : Q) (s : Details) : Details :=
  {| nameLength := nameLength s; addressCompleteness := addressCompleteness s;
     keywordOptimization := keywordOptimization s;
     googleRanking := googleRanking s;
     socialMediaPresence := socialMediaPresence s; localSEO := localSEO s;
     onlineReviews := v |}.

Definition socialPlatforms : list string :=
  ["facebook"; "instagram"; "twitter"; "linkedin"].

(** Lines 90-97: the block guarded by [_businessName.length > 0]. *)
Definition score_name (name : string) (score : Details) : Details :=
  if (0 <? length name)%Z then
    let score :=
      set_nameLength
        (if ((15 <=? length name) && (length name <=? 30))%Z then 30
         else if (length name <? 15)%Z
              then inject_Z (Math_round ((inject_Z (length name) / 15) * 30))
              else inject_Z (Math_round ((40 / inject_Z (length name)) * 30)))
        score in
    let keywords := split " " (toLowerCase name) in
    set_keywordOptimization
      (Math_min (inject_Z (size keywords) * 10) 30) score
  else score.

(** Lines 99-102: the block guarded by [_businessAddress.length > 0]. *)
Definition score_address (address : string) (score : Details) : Details :=
  if (0 <? length address)%Z then
    let addressParts := size (split "," address) in
    set_addressCompleteness (Math_min (inject_Z addressParts * 10) 40) score
  else score.

(** Lines 104-122: the four scores read from the fetched data.  The
    ranking and the share of the platforms are exact in doubles; the two
    review scores are rounded at every step. *)
Definition score_api (apiData : Api.Data) (score : Details) : Details :=
  let score :=
    set_googleRanking
      (Math_max 0
         (100 - inject_Z (Api.googlePosition (Api.searchRanking apiData))))
      score in
  let existingPlatforms :=
    size (filter
            (fun platform =>
               match Api.get (Api.socialMedia apiData) platform with
               | Some data => Api.exists_ data
               | None => false
               end)
            socialPlatforms) in
  let score :=
    set_socialMediaPresence
      ((inject_Z existingPlatforms / inject_Z (size socialPlatforms)) * 100)
      score in
  let google := Api.google (Api.reviews apiData) in
  let yelp := Api.yelp (Api.reviews apiData) in
  let avgRating :=
    Double.div (Double.add (Api.rating google) (Api.rating yelp)) 2 in
  let totalReviews :=
    Double.add (inject_Z (Api.count google)) (inject_Z (Api.count yelp)) in
  let score :=
    set_localSEO
      (Math_min 100
         (Double.add (Double.mul avgRating 10) (Double.div totalReviews 10)))
      score in
  set_onlineReviews
    (Math_min 100
       (Double.add
          (Double.mul (Double.div (Api.rating google) 5) 50)
          (Double.mul (Double.div (Api.rating yelp) 5) 50)))
    score.

(** The body of the [try] block once the data has arrived
    (lines 78-137). *)
Definition score_of (name address : string) (apiData : Api.Data) : SeoScore :=
  let score := score_init in
  let score := score_name name score in
  let score := score_address address score in
  let score := score_api apiData score in
  let total :=
    Double.div
      (fold_left (fun a b => Double.add a b) (Object_values score) 0) 7 in
  {| total := Math_round total;
     details := score;
     searchData :=
       {| googleRank := Api.googlePosition (Api.searchRanking apiData);
          monthlySearches := Api.monthlySearches (Api.searchRanking apiData);
          competitorRanking :=
            Api.competitorRanks (Api.searchRanking apiData) |};
     socialMedia := Api.socialMedia apiData;
     reviews := Api.reviews apiData |}.

(** [calculateSEOMetrics]: whatever the fetch was rejected with, the [catch]
    throws one and the same error. *)
Definition calculateSEOMetrics (st : HomeState)
    (fetched : Settled Api.Data) : Completion SeoScore :=
  match fetched with
  | Resolved apiData =>
      Return (score_of (_businessName st) (_businessAddress st) apiData)
  | Rejected _ => Throw "Failed to fetch SEO data"
  end.

(** ** [generateRecommendations] (page.tsx, lines 143-187) *)

(** [recs.push(x)]: the array with [x] added at its end. *)
Definition push {A : Type} (arr : list A) (x : A) : list A :=
  (arr ++ [x])%list.

Definition generateRecommendations (score : SeoScore)
    : list Recommendation :=
  let recs := [] in
  let recs :=
    if ltb (googleRanking (details score)) 70 then
      push recs
        {| category := "Search Engine Ranking";
           status := poor;
           message := ("Current Google Ranking: Position "
                       ++ show (googleRank (searchData score)))%string;
           improvement := "Improve website content, build quality backlinks, and optimize for relevant keywords";
           priority := high |}
    else recs in
  let missingSocialPlatforms :=
    map (fun entry : string * Api.Platform => fst entry)
      (filter (fun entry : string * Api.Platform =>
                 negb (Api.exists_ (snd entry)))
         (Api.entries (socialMedia score))) in
  let recs :=
    if (0 <? size missingSocialPlatforms)%Z then
      push recs
        {| category := "Social Media Presence";
           status := warning;
           message := ("Missing presence on: "
                       ++ join ", " missingSocialPlatforms)%string;
           improvement := "Create and maintain active profiles on missing social media platforms";
           priority := medium |}
    else recs in
  let recs :=
    if ((Api.count (Api.google (reviews score)) <? 100)
        || (Api.count (Api.yelp (reviews score)) <? 50))%Z then
      push recs
        {| category := "Online Reviews";
           status := warning;
           message := ("Current reviews: Google ("
                       ++ show (Api.count (Api.google (reviews score)))
                       ++ "), Yelp ("
                       ++ show (Api.count (Api.yelp (reviews score)))
                       ++ ")")%string;
           improvement := "Encourage satisfied customers to leave reviews and respond to existing reviews";
           priority := high |}
    else recs in
  recs.

(** ** [calculateSeoScore] (page.tsx, lines 189-202) *)

(** The setters that [useState] hands out. *)
Definition setSeoScore (v : option SeoScore) (st : HomeState) : HomeState :=
  {| _businessName := _businessName st;
     _businessAddress := _businessAddress st;
     seoScore := v; recommendations := recommendations st;
     isCalculating := isCalculating st; error := error st |}.

Definition setRecommendations (v : list Recommendation) (st : HomeState)
    : HomeState :=
  {| _businessName := _businessName st;
     _businessAddress := _businessAddress st;
     seoScore := seoScore st; recommendations := v;
     isCalculating := isCalculating st; error := error st |}.

Definition setIsCalculating (v : bool) (st : HomeState) : HomeState :=
  {| _businessName := _businessName st;
     _businessAddress := _businessAddress st;
     seoScore := seoScore st; recommendations := recommendations st;
     isCalculating := v; error := error st |}.

Definition setError (v : option string) (st : HomeState) : HomeState :=
  {| _businessName := _businessName st;
     _businessAddress := _businessAddress st;
     seoScore := seoScore st; recommendations := recommendations st;
     isCalculating := isCalculating st; error := v |}.

(** The click handler: [try] the calculation, [catch] whatever it throws,
    and [finally] lower the flag. *)
Definition calculateSeoScore (st : HomeState) (fetched : Settled Api.Data)
    : HomeState :=
  let st1 := setIsCalculating true st in
  let st2 := setError None st1 in
  let st3 :=
    match calculateSEOMetrics st fetched with
    | Return newScore =>
        let st' := setSeoScore (Some newScore) st2 in
        setRecommendations (generateRecommendations newScore) st'
    | Throw _ =>
        setError (Some "Failed to calculate SEO score. Please try again.") st2
    end in
  setIsCalculating false st3.

(** ** [getOverallStatus] (page.tsx, lines 204-208) *)

Record OverallStatus := {
  text : string;
  class : string
}.

Definition getOverallStatus (total : Z) : OverallStatus :=
  if (total >=? 70)%Z
  then {| text := "GOOD"; class := "bg-green-50 text-green-600" |}
  else if (total >=? 40)%Z
  then {| text := "FAIR"; class := "bg-yellow-50 text-yellow-600" |}
  else {| text := "POOR"; class := "bg-red-50 text-red-600" |}.

(** ** The words of the specification, for comparison *)

(** White space as [String.prototype.trim] and the class [\s] know it, among
    the code units below 256: tab, line feed, vertical tab, form feed,
    carriage return, space and the no-break space. *)
Definition is_whitespace (c : ascii) : bool :=
  let n := N_of_ascii c in
  ((9 <=? n) && (n <=? 13) || (n =? 32) || (n =? 160))%N.

(** The number of whitespace-separated tokens of a string: the number of
    its maximal runs of characters that are not white space.
    [in_token] tells whether the character before [s] was part of a token. *)
Fixpoint count_tokens (in_token : bool) (s : string) : Z :=
  match s with
  | EmptyString => 0
  | String c rest =>
      if is_whitespace c then count_tokens false rest
      else ((if in_token then 0 else 1) + count_tokens true rest)%Z
  end.

Definition whitespace_token_count (s : string) : Z := count_tokens false s.

(** The number of occurrences of a code unit in a string. *)
Fixpoint occurrences (c : ascii) (s : string) : Z :=
  match s with
  | EmptyString => 0
  | String d rest =>
      ((if Ascii.eqb d c then 1 else 0) + occurrences c rest)%Z
  end.

(** The seven sub-scores of a [details] object, added up. *)
Definition sum_of_details (d : Details) : Q :=
  nameLength d + addressCompleteness d + keywordOptimization d
  + googleRanking d + socialMediaPresence d + localSEO d + onlineReviews d.

(** The seven sub-scores added up as the page adds them: in doubles, from
    0, in the order of the fields. *)
Definition double_sum_of_details (d : Details) : Q :=
  Double.add
    (Double.add
       (Double.add
          (Double.add
             (Double.add
                (Double.add (Double.add 0 (nameLength d))
                   (addressCompleteness d))
                (keywordOptimization d))
             (googleRanking d))
          (socialMediaPresence d))
       (localSEO d))
    (onlineReviews d).

(** The room that the roundings of the sum and of the mean leave between
    the mean the page computes and the exact mean: [2 ^ -43]. *)
Definition mean_slack : Q := 2 ^ (-43).

(** A score between 0 and 100. *)
Definition in_range (x : Q) : Prop := 0 <= x <= 100.

Definition details_in_range (d : Details) : Prop :=
  in_range (nameLength d) /\ in_range (addressCompleteness d) /\
  in_range (keywordOptimization d) /\ in_range (googleRanking d) /\
  in_range (socialMediaPresence d) /\ in_range (localSEO d) /\
  in_range (onlineReviews d).

(** Raw signals as the data model describes them: a position that is not
    negative, ratings between 0 and 5, counts that are not negative. *)
Definition valid_signals (apiData : Api.Data) : Prop :=
  (0 <= Api.googlePosition (Api.searchRanking apiData))%Z /\
  0 <= Api.rating (Api.google (Api.reviews apiData)) <= 5 /\
  0 <= Api.rating (Api.yelp (Api.reviews apiData)) <= 5 /\
  (0 <= Api.count (Api.google (Api.reviews apiData)))%Z /\
  (0 <= Api.count (Api.yelp (Api.reviews apiData)))%Z.

(** Words set apart by single spaces: no white space but the space, no
    space at either end and no two spaces in a row.  [after_char] tells
    whether the character before [s] was part of a word; a string read from
    its start has no character before it. *)
Fixpoint spaced_from (after_char : bool) (s : string) : bool :=
  match s with
  | EmptyString => after_char
  | String c rest =>
      if Ascii.eqb c " " then after_char && spaced_from false rest
      else negb (is_whitespace c) && spaced_from true rest
  end.

Definition single_spaced (s : string) : bool := spaced_from false s.

(** The names of the tracked platforms that the score reports as absent,
    in the order facebook, instagram, twitter, linkedin. *)
Definition missing_platforms (s : SeoScore) : list string :=
  ((if Api.exists_ (Api.facebook (socialMedia s)) then [] else ["facebook"])
   ++ (if Api.exists_ (Api.instagram (socialMedia s)) then []
       else ["instagram"])
   ++ (if Api.exists_ (Api.twitter (socialMedia s)) then [] else ["twitter"])
   ++ (if Api.exists_ (Api.linkedin (socialMedia s)) then []
       else ["linkedin"]))%list.

(** At least one of the four tracked platforms has [exists = false]. *)
Definition some_platform_missing (s : SeoScore) : Prop :=
  Api.exists_ (Api.facebook (socialMedia s)) = false \/
  Api.exists_ (Api.instagram (socialMedia s)) = false \/
  Api.exists_ (Api.twitter (socialMedia s)) = false \/
  Api.exists_ (Api.linkedin (socialMedia s)) = false.

(** Too few reviews: fewer than 100 at google or fewer than 50 at yelp. *)
Definition few_reviews (s : SeoScore) : Prop :=
  (Api.count (Api.google (reviews s)) < 100)%Z \/
  (Api.count (Api.yelp (reviews s)) < 50)%Z.

(** The three recommendations of section 4.2, one per rule. *)
Definition ranking_recommendation (s : SeoScore) : Recommendation :=
  {| category := "Search Engine Ranking";
     status := poor;
     message := ("Current Google Ranking: Position "
                 ++ show (googleRank (searchData s)))%string;
     improvement := "Improve website content, build quality backlinks, and optimize for relevant keywords";
     priority := high |}.

Definition social_recommendation (s : SeoScore) : Recommendation :=
  {| category := "Social Media Presence";
     status := warning;
     message := ("Missing presence on: "
                 ++ join ", " (missing_platforms s))%string;
     improvement := "Create and maintain active profiles on missing social media platforms";
     priority := medium |}.

Definition reviews_recommendation (s : SeoScore) : Recommendation :=
  {| category := "Online Reviews";
     status := warning;
     message := ("Current reviews: Google ("
                 ++ show (Api.count (Api.google (reviews s)))
                 ++ "), Yelp ("
                 ++ show (Api.count (Api.yelp (reviews s)))
                 ++ ")")%string;
     improvement := "Encourage satisfied customers to leave reviews and respond to existing reviews";
     priority := high |}.

(** ** Sample inputs *)

Definition sample_api : Api.Data :=
  {| Api.searchRanking :=
       {| Api.googlePosition := 42; Api.monthlySearches := 1200;
          Api.competitorRanks := [2; 5; 6; 9; 14]%Z |};
     Api.socialMedia :=
       {| Api.facebook := {| Api.exists_ := true; Api.followers := 5300 |};
          Api.instagram := {| Api.exists_ := false; Api.followers := 870 |};
          Api.twitter := {| Api.exists_ := true; Api.followers := 12 |};
          Api.linkedin := {| Api.exists_ := false; Api.followers := 0 |} |};
     Api.reviews :=
       {| Api.google := {| Api.rating := 9 # 2; Api.count := 50 |};
          Api.yelp := {| Api.rating := 4; Api.count := 10 |} |} |}.

(** Signals whose scores have a mean next to 42.5: the review score of
    yelp is the double below 33, so the exact mean of the seven sub-scores
    lies under 42.5, while their sum in doubles is 297.5. *)
Definition tie_api : Api.Data :=
  {| Api.searchRanking :=
       {| Api.googlePosition := 48; Api.monthlySearches := 1200;
          Api.competitorRanks := [2; 5; 6; 9; 14]%Z |};
     Api.socialMedia :=
       {| Api.facebook := {| Api.exists_ := true; Api.followers := 5300 |};
          Api.instagram := {| Api.exists_ := false; Api.followers := 870 |};
          Api.twitter := {| Api.exists_ := true; Api.followers := 12 |};
          Api.linkedin := {| Api.exists_ := false; Api.followers := 0 |} |};
     Api.reviews :=
       {| Api.google := {| Api.rating := 3; Api.count := 0 |};
          Api.yelp :=
            {| Api.rating := Double.round (33 # 10); Api.count := 10 |} |} |}.

Definition sample_name : string := "Joe's Pizza Place".
Definition sample_address : string := "123 Main St, Springfield, IL, 62704".

(** Two words with two spaces between them. *)
Definition double_spaced_name : string := "Joe's  Pizza".

(** Three words with tabs between them. *)
Definition tabbed_name : string :=
  String "J" (String "o" (String "e" (String "009"
    (String "P" (String "i" (String "e" (String "009"
      (String "B" (String "a" (String "r" EmptyString)))))))))).

(** A score that breaks no rule. *)
Definition quiet_api : Api.Data :=
  {| Api.searchRanking :=
       {| Api.googlePosition := 3; Api.monthlySearches := 9000;
          Api.competitorRanks := [1; 4; 7; 9; 13]%Z |};
     Api.socialMedia :=
       {| Api.facebook := {| Api.exists_ := true; Api.followers := 5300 |};
          Api.instagram := {| Api.exists_ := true; Api.followers := 870 |};
          Api.twitter := {| Api.exists_ := true; Api.followers := 12 |};
          Api.linkedin := {| Api.exists_ := true; Api.followers := 40 |} |};
     Api.reviews :=
       {| Api.google := {| Api.rating := 9 # 2; Api.count := 320 |};
          Api.yelp := {| Api.rating := 4; Api.count := 75 |} |} |}.

Definition sample_state : HomeState :=
  {| _businessName := sample_name; _businessAddress := sample_address;
     seoScore := None; recommendations := []; isCalculating := false;
     error := None |}.

(** ** [fetchSEOData] (page.tsx, lines 42-64) *)

(** [Math.floor] *)
Definition Math_floor (x : Q) : Z := Qfloor x.

(** [Math.random]: the value of the call number [n], counted from 0.  The
    object literal is evaluated in the order it is written and [map] calls
    its function along the array, so the draws are numbered as they stand in
    the source. *)
Definition Random := nat -> Q.

(** Every draw is a double in the interval from 0 to 1, 1 left out. *)
Definition unit_draws (random : Random) : Prop :=
  forall n : nat, Double.is_double (random n) /\ 0 <= random n < 1.

(** The ranks [1, 3, 5, 8, 12] that the competitors start from. *)
Definition competitorBase : list Z := [1; 3; 5; 8; 12]%Z.

(** [arr.map(x => x + Math.floor(Math.random() * 5))], the first call
    being draw number [n]. *)
Fixpoint shift_ranks (random : Random) (n : nat) (arr : list Z) : list Z :=
  match arr with
  | [] => []
  | x :: rest =>
      (x + Math_floor (Double.mul (random n) 5))%Z
      :: shift_ranks random (S n) rest
  end.

(** The simulated call: the delay of two seconds has no part in the value,
    the arguments are ignored and the promise always resolves.  The
    thresholds 0.3 to 0.6 are the doubles nearest to these decimals. *)
Definition fetchSEOData (businessName businessAddress : string)
    (random : Random) : Settled Api.Data :=
  Resolved
    {| Api.searchRanking :=
         {| Api.googlePosition :=
              Math_floor (Double.mul (random 0%nat) 100);
            Api.monthlySearches :=
              Math_floor (Double.mul (random 1%nat) 10000);
            Api.competitorRanks := shift_ranks random 2 competitorBase |};
       Api.socialMedia :=
         {| Api.facebook :=
              {| Api.exists_ := ltb (Double.round (3 # 10)) (random 7%nat);
                 Api.followers :=
                   Math_floor (Double.mul (random 8%nat) 10000) |};
            Api.instagram :=
              {| Api.exists_ := ltb (Double.round (4 # 10)) (random 9%nat);
                 Api.followers :=
                   Math_floor (Double.mul (random 10%nat) 5000) |};
            Api.twitter :=
              {| Api.exists_ := ltb (Double.round (5 # 10)) (random 11%nat);
                 Api.followers :=
                   Math_floor (Double.mul (random 12%nat) 3000) |};
            Api.linkedin :=
              {| Api.exists_ := ltb (Double.round (6 # 10)) (random 13%nat);
                 Api.followers :=
                   Math_floor (Double.mul (random 14%nat) 1000) |} |};
       Api.reviews :=
         {| Api.google :=
              {| Api.rating := Double.add 3 (Double.mul (random 15%nat) 2);
                 Api.count := Math_floor (Double.mul (random 16%nat) 500) |};
            Api.yelp :=
              {| Api.rating := Double.add 3 (Double.mul (random 17%nat) 2);
                 Api.count :=
                   Math_floor (Double.mul (random 18%nat) 200) |} |} |}.

(** ** The rendering of [Home] (page.tsx, lines 210-700) *)

(** [!s] for a string: only the empty string is falsy. *)
Definition falsy (s : string) : bool :=
  match s with
  | EmptyString => true
  | String _ _ => false
  end.

(** The [disabled] attribute of the button (lines 304 and 638). *)
Definition button_disabled (st : HomeState) : bool :=
  isCalculating st || falsy (_businessName st) || falsy (_businessAddress st).

(** The five stars of a review (lines 528-535): star number [star] is
    yellow when [star <= data.rating]. *)
Definition stars (rating : Q) : list bool :=
  map (fun star : Z => Qle_bool (inject_Z star) rating) [1; 2; 3; 4; 5]%Z.

(** One coloured arc of the ring: the first number of [strokeDasharray]
    and the number of [strokeDashoffset]. *)
Record Arc := {
  dash : Q;
  dashoffset : Q
}.

(** The ring is drawn on a circle of circumference 283. *)
Definition ring_length : Q := 283.

(** The three coloured arcs of the score ring (lines 389-416), for the
    name, the address and the keywords, in doubles.  The first has no
    offset. *)
Definition score_ring (d : Details) : list Arc :=
  [ {| dash := Double.mul (Double.div (nameLength d) 100) 283;
       dashoffset := 0 |};
    {| dash := Double.mul (Double.div (addressCompleteness d) 100) 283;
       dashoffset := Double.mul (- Double.div (nameLength d) 100) 283 |};
    {| dash := Double.mul (Double.div (keywordOptimization d) 100) 283;
       dashoffset :=
         Double.mul
           (- Double.div
                (Double.add (nameLength d) (addressCompleteness d)) 100)
           283 |} ].

(** ** The session: events on the page *)

Definition setBusinessName (v : string) (st : HomeState) : HomeState :=
  {| _businessName := v;
     _businessAddress := _businessAddress st;
     seoScore := seoScore st; recommendations := recommendations st;
     isCalculating := isCalculating st; error := error st |}.

Definition setBusinessAddress (v : string) (st : HomeState) : HomeState :=
  {| _businessName := _businessName st;
     _businessAddress := v;
     seoScore := seoScore st; recommendations := recommendations st;
     isCalculating := isCalculating st; error := error st |}.

(** The values [useState] starts from (lines 67-72). *)
Definition initial_state : HomeState :=
  {| _businessName := ""; _businessAddress := ""; seoScore := None;
     recommendations := []; isCalculating := false; error := None |}.

(** What happens on the page: the two inputs change, the button is
    clicked, and the promise that a running handler awaits settles. *)
Inductive Event :=
| ChangeName (v : string)
| ChangeAddress (v : string)
| Click
| Settle (fetched : Settled Api.Data).

(** The state on the screen, with the state a running [calculateSeoScore]
    closed over when it was started: the handler reads the name and the
    address of the render it belongs to, while its setters act on the
    state of the moment. *)
Record Session := {
  rendered : HomeState;
  running : option HomeState
}.

Definition initial_session : Session :=
  {| rendered := initial_state; running := None |}.

(** [calculateSeoScore] in its two halves, before and after the [await].
    A disabled button passes no click on; a promise that settles with no
    handler waiting changes nothing. *)
Definition handle (e : Event) (ss : Session) : Session :=
  match e with
  | ChangeName v =>
      {| rendered := setBusinessName v (rendered ss);
         running := running ss |}
  | ChangeAddress v =>
      {| rendered := setBusinessAddress v (rendered ss);
         running := running ss |}
  | Click =>
      if button_disabled (rendered ss) then ss
      else
        {| rendered := setError None (setIsCalculating true (rendered ss));
           running := Some (rendered ss) |}
  | Settle fetched =>
      match running ss with
      | None => ss
      | Some closure =>
          let st :=
            match calculateSEOMetrics closure fetched with
            | Return newScore =>
                let st' := setSeoScore (Some newScore) (rendered ss) in
                setRecommendations (generateRecommendations newScore) st'
            | Throw _ =>
                setError
                  (Some "Failed to calculate SEO score. Please try again.")
                  (rendered ss)
            end in
          {| rendered := setIsCalculating false st; running := None |}
      end
  end.

Definition run (events : list Event) (ss : Session) : Session :=
  fold_left (fun ss e => handle e ss) events ss.

(** What holds of every session the page can reach. *)
Definition score_from_form (s : SeoScore) : Prop :=
  exists (name address : string) (apiData : Api.Data),
    name <> "" /\ address <> "" /\ s = score_of name address apiData.

(** A name of 31 code units in six words, which scores 39 for its
    length. *)
Definition long_name : string := "Joe's Pizza and Pasta Place Inc".

(** The best signals there are. *)
Definition best_api : Api.Data :=
  {| Api.searchRanking :=
       {| Api.googlePosition := 0; Api.monthlySearches := 9000;
          Api.competitorRanks := [1; 4; 7; 9; 13]%Z |};
     Api.socialMedia :=
       {| Api.facebook := {| Api.exists_ := true; Api.followers := 5300 |};
          Api.instagram := {| Api.exists_ := true; Api.followers := 870 |};
          Api.twitter := {| Api.exists_ := true; Api.followers := 12 |};
          Api.linkedin := {| Api.exists_ := true; Api.followers := 40 |} |};
     Api.reviews :=
       {| Api.google := {| Api.rating := 5; Api.count := 400 |};
          Api.yelp := {| Api.rating := 5; Api.count := 150 |} |} |}.

(** Draws that are all one half. *)
Definition half_draws : Random := fun _ => 1 # 2.

(** The score of a name of [L] code units, in integers: nothing for the
    empty name, twice the length below 15, 30 up to 30, and [1200 / L]
    rounded beyond. *)
Definition name_score (L : Z) : Z :=
  if (L <=? 0)%Z then 0
  else if (L <? 15)%Z then 2 * L
  else if (L <=? 30)%Z then 30
  else (2400 + L) / (2 * L).

(** The room that the roundings of the arcs take: [2 ^ -30]. *)
Definition ring_slack : Q := 2 ^ (-30).

(** The sum of the first numbers of [strokeDasharray] along the ring. *)
Definition ring_used (arcs : list Arc) : Q :=
  fold_right (fun arc used => dash arc + used) 0 arcs.

(** An event that only edits one of the two inputs. *)
Definition is_edit (e : Event) : bool :=
  match e with
  | ChangeName _ | ChangeAddress _ => true
  | Click | Settle _ => false
  end.

(** What every step of a session keeps: the flag is up exactly while a
    handler runs; a running handler was started on a form that was filled
    in; the recommendations on the screen are those of the score on the
    screen, which was computed for a form that was filled in; and the error
    is the one message or none. *)
Definition session_ok (ss : Session) : Prop :=
  (isCalculating (rendered ss) = true <-> running ss <> None) /\
  (forall closure : HomeState,
     running ss = Some closure ->
     _businessName closure <> "" /\ _businessAddress closure <> "") /\
  match seoScore (rendered ss) with
  | None => recommendations (rendered ss) = []
  | Some s =>
      recommendations (rendered ss) = generateRecommendations s /\
      score_from_form s
  end /\
  (error (rendered ss) = None \/
   error (rendered ss)
   = Some "Failed to calculate SEO score. Please try again.").

(** The form filled in, the button clicked and the data arrived. *)
Definition sample_events : list Event :=
  [ ChangeName sample_name; ChangeAddress sample_address; Click;
    Settle (Resolved sample_api) ].

(** The conditional of lines 91-93 with its quotients and products in
    doubles, as the page evaluates it for a name of [L] code units. *)
Definition name_score_in_doubles (L : Z) : Z :=
  if ((15 <=? L) && (L <=? 30))%Z then 30
  else if (L <? 15)%Z
       then Math_round (Double.mul (Double.div (inject_Z L) 15) 30)
       else Math_round (Double.mul (Double.div 40 (inject_Z L)) 30).

(** The lengths from 1 to 2400, beyond which the score is 0. *)
Definition scoring_lengths : list Z := map Z.of_nat (seq 1 2400).

(** * Properties *)

(** ** Arithmetic of the primitives *)

Lemma ltb_lt (x y : Q) : ltb x y = true <-> x < y.
Proof.
  unfold ltb. rewrite negb_true_iff.
  split.
  - intro H. apply Qnot_le_lt. intro Hle.
    apply Qle_bool_iff in Hle. congruence.
  - intro H. destruct (Qle_bool y x) eqn:E; [| reflexivity].
    apply Qle_bool_iff in E. exfalso. exact (Qlt_not_le _ _ H E).
Qed.

Lemma ltb_ge (x y : Q) : ltb x y = false <-> y <= x.
Proof.
  unfold ltb. rewrite negb_false_iff. apply Qle_bool_iff.
Qed.

Lemma Math_round_Qeq (x y : Q) : x == y -> Math_round x = Math_round y.
Proof.
  intro H. unfold Math_round. apply Qfloor_comp. rewrite H. reflexivity.
Qed.

Lemma Math_round_Z (z : Z) : Math_round (inject_Z z) = z.
Proof.
  unfold Math_round, Qfloor, Qplus. cbn [inject_Z Qnum Qden].
  replace (z * 2 + 1 * 1)%Z with (1 + z * 2)%Z by lia.
  replace (Z.pos (1 * 2)) with 2%Z by reflexivity.
  rewrite Z.div_add by lia. reflexivity.
Qed.

Lemma Math_round_le (x y : Q) : x <= y -> (Math_round x <= Math_round y)%Z.
Proof.
  intro H. unfold Math_round. apply Qfloor_resp_le. lra.
Qed.

Lemma Math_round_between (lo hi : Z) (x : Q) :
  inject_Z lo <= x <= inject_Z hi -> (lo <= Math_round x <= hi)%Z.
Proof.
  intros [Hlo Hhi]. split.
  - rewrite <- (Math_round_Z lo). now apply Math_round_le.
  - rewrite <- (Math_round_Z hi). now apply Math_round_le.
Qed.

(** [Math.round] of a quotient of integers is an integer division. *)
Lemma Math_round_div (a : Z) (b : positive) :
  Math_round (a # b) = ((2 * a + Z.pos b) / (2 * Z.pos b))%Z.
Proof.
  unfold Math_round, Qfloor, Qplus. cbn [Qnum Qden].
  f_equal; lia.
Qed.

Lemma size_nonneg {A : Type} (l : list A) : (0 <= size l)%Z.
Proof. unfold size. lia. Qed.

Lemma length_nonneg (s : string) : (0 <= length s)%Z.
Proof. unfold length. lia. Qed.

Lemma length_zero (s : string) : length s = 0%Z <-> s = "".
Proof.
  unfold length. destruct s; cbn [String.length]; split; intro H;
    try reflexivity; try discriminate; lia.
Qed.

(** ** Rounding to a double *)

Lemma pow2_pos (k : Z) : 0 < 2 ^ k.
Proof. apply Qpower_0_lt. reflexivity. Qed.

Lemma pow2_plus (a b : Z) : 2 ^ (a + b) == 2 ^ a * 2 ^ b.
Proof. apply Qpower_plus. discriminate. Qed.

Lemma pow2_le (a b : Z) : (a <= b)%Z -> 2 ^ a <= 2 ^ b.
Proof. intro H. apply Qpower_le_compat_l; [exact H | discriminate]. Qed.

Lemma pow2_lt_inv (a b : Z) : 2 ^ a < 2 ^ b -> (a < b)%Z.
Proof. intro H. eapply Qpower_lt_compat_l_inv; [exact H | reflexivity]. Qed.

Lemma pow2_Z (k : Z) : (0 <= k)%Z -> 2 ^ k == inject_Z (2 ^ k).
Proof. intro H. rewrite (Zpower_Qpower 2 k H). reflexivity. Qed.

Lemma pow2_cancel (k : Z) : 2 ^ k * 2 ^ (- k) == 1.
Proof. rewrite <- pow2_plus. rewrite Z.add_opp_diag_r. reflexivity. Qed.

(** The integer logarithm of a positive integer, in rationals. *)
Lemma log2_bounds (n : Z) :
  (0 < n)%Z -> 2 ^ Z.log2 n <= inject_Z n /\ inject_Z n < 2 ^ (Z.log2 n + 1).
Proof.
  intro H. destruct (Z.log2_spec n H) as [Hlo Hhi].
  pose proof (Z.log2_nonneg n) as Hnn.
  rewrite !pow2_Z by lia.
  rewrite <- Zle_Qle, <- Zlt_Qlt. replace (Z.log2 n + 1)%Z with (Z.succ (Z.log2 n)) by lia. lia.
Qed.

Lemma binade_spec (x : Q) :
  ~ x == 0 -> 2 ^ Double.binade x <= Qabs x /\ Qabs x < 2 ^ (Double.binade x + 1).
Proof.
  intro Hx. unfold Double.binade.
  destruct x as [n d]. cbn [Qnum Qden].
  assert (Hn : (0 < Z.abs n)%Z).
  { assert (n <> 0%Z); [| lia]. intro E. apply Hx. subst n. reflexivity. }
  destruct (log2_bounds (Z.abs n) Hn) as [Hn1 Hn2].
  destruct (log2_bounds (Zpos d) eq_refl) as [Hd1 Hd2].
  set (a := Z.log2 (Z.abs n)) in *. set (b := Z.log2 (Zpos d)) in *.
  assert (Habs : Qabs (n # d) == inject_Z (Z.abs n) / inject_Z (Zpos d)).
  { cbn [Qabs]. apply Qmake_Qdiv. }
  assert (Hd0 : 0 < inject_Z (Zpos d)) by reflexivity.
  destruct (Qle_bool (2 ^ (a - b)) (Qabs (n # d))) eqn:E.
  - apply Qle_bool_iff in E. split; [exact E |].
    rewrite Habs. apply Qlt_shift_div_r; [exact Hd0 |].
    apply Qlt_le_trans with (2 ^ (a + 1)); [exact Hn2 |].
    replace (a + 1)%Z with ((a - b + 1) + b)%Z by lia.
    rewrite pow2_plus.
    apply Qmult_le_l; [apply pow2_pos | exact Hd1].
  - assert (Hlt : Qabs (n # d) < 2 ^ (a - b)).
    { apply Qnot_le_lt. intro H. apply Qle_bool_iff in H. congruence. }
    split.
    + rewrite Habs. apply Qle_shift_div_l; [exact Hd0 |].
      apply Qle_trans with (2 ^ a); [| exact Hn1].
      replace a with ((a - b - 1) + (b + 1))%Z at 2 by lia.
      rewrite pow2_plus.
      apply Qmult_le_l; [apply pow2_pos | apply Qlt_le_weak, Hd2].
    + replace (a - b - 1 + 1)%Z with (a - b)%Z by lia. exact Hlt.
Qed.

(** A magnitude below [2 ^ e] lies in a binade below [e]. *)
Lemma binade_lt (x : Q) (e : Z) :
  ~ x == 0 -> Qabs x < 2 ^ e -> (Double.binade x < e)%Z.
Proof.
  intros Hx H. destruct (binade_spec x Hx) as [Hlo _].
  apply pow2_lt_inv. eapply Qle_lt_trans; eassumption.
Qed.

Lemma binade_ge (x : Q) (e : Z) :
  ~ x == 0 -> 2 ^ e <= Qabs x -> (e <= Double.binade x)%Z.
Proof.
  intros Hx H. destruct (binade_spec x Hx) as [_ Hhi].
  assert (e < Double.binade x + 1)%Z; [| lia].
  apply pow2_lt_inv. eapply Qle_lt_trans; eassumption.
Qed.

(** Rounding to the nearest integer. *)
Lemma nearest_even_cases (y : Q) :
  let f := Qfloor y in
  (Double.nearest_even y = f /\ y - inject_Z f <= 1 # 2) \/
  (Double.nearest_even y = (f + 1)%Z /\ 1 # 2 <= y - inject_Z f).
Proof.
  intro f. unfold Double.nearest_even. fold f.
  destruct (Qcompare_spec (y - inject_Z f) (1 # 2)) as [E | E | E].
  - destruct (Z.even f); [left | right]; split; auto; rewrite E; apply Qle_refl.
  - left. split; [reflexivity | apply Qlt_le_weak, E].
  - right. split; [reflexivity | apply Qlt_le_weak, E].
Qed.

Lemma floor_bounds (y : Q) :
  inject_Z (Qfloor y) <= y /\ y < inject_Z (Qfloor y) + 1.
Proof.
  split; [apply Qfloor_le |].
  pose proof (Qlt_floor y) as H. rewrite inject_Z_plus in H. exact H.
Qed.

Lemma nearest_even_error (y : Q) :
  - (1 # 2) <= inject_Z (Double.nearest_even y) - y <= 1 # 2.
Proof.
  destruct (floor_bounds y) as [Hlo Hhi].
  destruct (nearest_even_cases y) as [[E H] | [E H]]; rewrite E.
  - split; lra.
  - rewrite inject_Z_plus. change (inject_Z 1) with 1. split; lra.
Qed.

Lemma nearest_even_le (y : Q) (z : Z) :
  y <= inject_Z z -> (Double.nearest_even y <= z)%Z.
Proof.
  intro H. destruct (floor_bounds y) as [Hlo Hhi].
  destruct (nearest_even_cases y) as [[E Hc] | [E Hc]]; rewrite E.
  - rewrite Zle_Qle. lra.
  - assert (Hlt : inject_Z (Qfloor y) < inject_Z z) by lra.
    rewrite <- Zlt_Qlt in Hlt. lia.
Qed.

Lemma nearest_even_ge (y : Q) (z : Z) :
  inject_Z z <= y -> (z <= Double.nearest_even y)%Z.
Proof.
  intro H. destruct (floor_bounds y) as [Hlo Hhi].
  assert (Hz : (z <= Qfloor y)%Z).
  { apply Qfloor_resp_le in H. rewrite Qfloor_Z in H. exact H. }
  destruct (nearest_even_cases y) as [[E Hc] | [E Hc]]; rewrite E; lia.
Qed.

Lemma nearest_even_below_half (y : Q) (z : Z) :
  y < inject_Z z + (1 # 2) -> (Double.nearest_even y <= z)%Z.
Proof.
  intro H. destruct (floor_bounds y) as [Hlo Hhi].
  destruct (nearest_even_cases y) as [[E Hc] | [E Hc]]; rewrite E.
  - assert (Hlt : inject_Z (Qfloor y) < inject_Z (z + 1)).
    { rewrite inject_Z_plus. change (inject_Z 1) with 1. lra. }
    rewrite <- Zlt_Qlt in Hlt. lia.
  - assert (Hlt : inject_Z (Qfloor y) < inject_Z z) by lra.
    rewrite <- Zlt_Qlt in Hlt. lia.
Qed.

Lemma nearest_even_above_half (y : Q) (z : Z) :
  inject_Z z - (1 # 2) < y -> (z <= Double.nearest_even y)%Z.
Proof.
  intro H. destruct (floor_bounds y) as [Hlo Hhi].
  destruct (nearest_even_cases y) as [[E Hc] | [E Hc]]; rewrite E.
  - assert (Hlt : inject_Z (z - 1) < inject_Z (Qfloor y)).
    { unfold Z.sub. rewrite inject_Z_plus, inject_Z_opp.
      change (inject_Z 1) with 1. lra. }
    rewrite <- Zlt_Qlt in Hlt. lia.
  - assert (Hlt : inject_Z z < inject_Z (Qfloor y + 2)).
    { rewrite inject_Z_plus. change (inject_Z 2) with 2. lra. }
    rewrite <- Zlt_Qlt in Hlt. lia.
Qed.

(** ** Rounding to a double *)

Lemma round_0 (x : Q) : x == 0 -> Double.round x = 0.
Proof.
  intro H. unfold Double.round. apply Qeq_bool_iff in H. rewrite H. reflexivity.
Qed.

Lemma round_unfold (x : Q) :
  ~ x == 0 ->
  Double.round x = inject_Z (Double.nearest_even (x * 2 ^ Double.places x)) * 2 ^ (- Double.places x).
Proof.
  intro H. unfold Double.round.
  destruct (Qeq_bool x 0) eqn:E; [| reflexivity].
  apply Qeq_bool_iff in E. contradiction.
Qed.

(** A number below [2 ^ (53 - k)] in size is rounded on a grid that is at
    least as fine as [2 ^ (- k)]. *)
Lemma places_ge (x : Q) (k : Z) :
  ~ x == 0 -> (k <= 1074)%Z -> Qabs x < 2 ^ (53 - k) -> (k <= Double.places x)%Z.
Proof.
  intros Hx Hk H. unfold Double.places.
  pose proof (binade_lt x (53 - k) Hx H). lia.
Qed.

(** Rounding does not step over a point of a grid it contains. *)
Lemma round_grid (x : Q) (m k : Z) :
  (k <= 1074)%Z -> Qabs x < 2 ^ (53 - k) ->
  (x <= inject_Z m * 2 ^ (- k) -> Double.round x <= inject_Z m * 2 ^ (- k)) /\
  (inject_Z m * 2 ^ (- k) <= x -> inject_Z m * 2 ^ (- k) <= Double.round x).
Proof.
  intros Hk Hx.
  destruct (Qeq_dec x 0) as [E0 | Hne].
  - rewrite (round_0 x E0). rewrite E0. split; auto.
  - pose proof (places_ge x k Hne Hk Hx) as Hs.
    rewrite (round_unfold x Hne).
    set (s := Double.places x) in *.
    pose proof (pow2_pos s) as Hps. pose proof (pow2_pos (- s)) as Hms.
    pose proof (pow2_cancel s) as Hc.
    assert (Hgrid : inject_Z m * 2 ^ (- k)
                    == inject_Z (m * 2 ^ (s - k)) * 2 ^ (- s)).
    { rewrite inject_Z_mult, <- pow2_Z by lia.
      rewrite <- Qmult_assoc, <- pow2_plus.
      replace (s - k + - s)%Z with (- k)%Z by lia. reflexivity. }
    rewrite Hgrid.
    assert (Hscale : forall a b : Q, a <= b * 2 ^ (- s) <-> a * 2 ^ s <= b).
    { intros a b. split; intro H.
      - apply (Qmult_le_r _ _ (2 ^ (- s))); [exact Hms |].
        rewrite <- Qmult_assoc, Hc, Qmult_1_r. exact H.
      - apply (Qmult_le_r _ _ (2 ^ (- s))) in H; [| exact Hms].
        rewrite <- Qmult_assoc, Hc, Qmult_1_r in H. exact H. }
    assert (Hscale' : forall a b : Q, b * 2 ^ (- s) <= a <-> b <= a * 2 ^ s).
    { intros a b. split; intro H.
      - apply (Qmult_le_r _ _ (2 ^ (- s))); [exact Hms |].
        rewrite <- (Qmult_assoc a), Hc, Qmult_1_r. exact H.
      - apply (Qmult_le_r _ _ (2 ^ (- s))) in H; [| exact Hms].
        rewrite <- (Qmult_assoc a), Hc, Qmult_1_r in H. exact H. }
    split; intro H.
    + apply Qmult_le_compat_r; [| apply Qlt_le_weak, Hms].
      rewrite <- Zle_Qle. apply nearest_even_le. now apply Hscale.
    + apply Qmult_le_compat_r; [| apply Qlt_le_weak, Hms].
      rewrite <- Zle_Qle. apply nearest_even_ge. now apply Hscale'.
Qed.

(** At integers in particular. *)
Lemma round_le_Z (x : Q) (z : Z) :
  Qabs x < 2 ^ 53 -> x <= inject_Z z -> Double.round x <= inject_Z z.
Proof.
  intros Hx H.
  destruct (round_grid x z 0 ltac:(lia) Hx) as [Hle _].
  change (2 ^ (- 0)) with 1 in Hle. rewrite Qmult_1_r in Hle. auto.
Qed.

Lemma round_ge_Z (x : Q) (z : Z) :
  Qabs x < 2 ^ 53 -> inject_Z z <= x -> inject_Z z <= Double.round x.
Proof.
  intros Hx H.
  destruct (round_grid x z 0 ltac:(lia) Hx) as [_ Hge].
  change (2 ^ (- 0)) with 1 in Hge. rewrite Qmult_1_r in Hge. auto.
Qed.

Lemma round_nonneg (x : Q) : 0 <= x -> 0 <= Double.round x.
Proof.
  intro H.
  destruct (Qeq_dec x 0) as [E0 | Hne].
  - rewrite (round_0 x E0). apply Qle_refl.
  - rewrite (round_unfold x Hne).
    apply Qmult_le_0_compat; [| apply Qlt_le_weak, pow2_pos].
    change 0 with (inject_Z 0). rewrite <- Zle_Qle.
    apply nearest_even_ge. change (inject_Z 0) with 0.
    apply Qmult_le_0_compat; [exact H | apply Qlt_le_weak, pow2_pos].
Qed.

(** The error of one rounding: half a unit in the last place. *)
Lemma round_error (x : Q) (e : Z) :
  (-1021 <= e)%Z -> Qabs x < 2 ^ e ->
  Qabs (Double.round x - x) <= 2 ^ (e - 54).
Proof.
  intros He Hx.
  destruct (Qeq_dec x 0) as [E0 | Hne].
  - rewrite (round_0 x E0). rewrite E0.
    apply Qlt_le_weak. apply (pow2_pos (e - 54)).
  - pose proof (binade_lt x e Hne Hx) as Hb.
    rewrite (round_unfold x Hne).
    set (s := Double.places x) in *.
    assert (Hs : (53 - e <= s)%Z) by (unfold s, Double.places; lia).
    pose proof (pow2_pos s) as Hps. pose proof (pow2_pos (- s)) as Hms.
    pose proof (pow2_cancel s) as Hc.
    pose proof (nearest_even_error (x * 2 ^ s)) as [Hlo Hhi].
    set (n := inject_Z (Double.nearest_even (x * 2 ^ s))) in *.
    assert (Heq : n * 2 ^ (- s) - x == (n - x * 2 ^ s) * 2 ^ (- s)).
    { setoid_replace ((n - x * 2 ^ s) * 2 ^ (- s))
        with (n * 2 ^ (- s) - x * (2 ^ s * 2 ^ (- s))) by ring.
      rewrite Hc. ring. }
    rewrite Heq, Qabs_Qmult.
    rewrite (Qabs_pos (2 ^ (- s))) by (apply Qlt_le_weak, Hms).
    apply Qle_trans with ((1 # 2) * 2 ^ (- s)).
    + apply Qmult_le_compat_r; [| apply Qlt_le_weak, Hms].
      apply Qabs_Qle_condition. split; assumption.
    + change (1 # 2) with (2 ^ (- 1)). rewrite <- pow2_plus.
      apply pow2_le. lia.
Qed.

(** Below [2 ^ 53] rounding stays between the integers around it. *)
Lemma round_between (x : Q) (lo hi : Z) :
  (- 9007199254740992 < lo)%Z -> (hi < 9007199254740992)%Z ->
  inject_Z lo <= x <= inject_Z hi ->
  inject_Z lo <= Double.round x <= inject_Z hi.
Proof.
  intros Hlo Hhi [H1 H2].
  assert (Hx : Qabs x < 2 ^ 53).
  { apply Qabs_Qlt_condition.
    rewrite Zlt_Qlt in Hlo, Hhi.
    change (2 ^ 53) with (inject_Z 9007199254740992).
    change (inject_Z (- 9007199254740992))
      with (- inject_Z 9007199254740992) in Hlo.
    split; lra. }
  split; [apply round_ge_Z | apply round_le_Z]; assumption.
Qed.

Lemma add_between (x y : Q) (lx ux ly uy : Z) :
  (- 9007199254740992 < lx + ly)%Z -> (ux + uy < 9007199254740992)%Z ->
  inject_Z lx <= x <= inject_Z ux ->
  inject_Z ly <= y <= inject_Z uy ->
  inject_Z (lx + ly) <= Double.add x y <= inject_Z (ux + uy).
Proof.
  intros Hlo Hhi [Hx1 Hx2] [Hy1 Hy2]. unfold Double.add.
  apply round_between; [exact Hlo | exact Hhi |].
  rewrite !inject_Z_plus. split; lra.
Qed.

Lemma add_nonneg (x y : Q) : 0 <= x -> 0 <= y -> 0 <= Double.add x y.
Proof. intros Hx Hy. apply round_nonneg. lra. Qed.

Lemma mul_nonneg (x y : Q) : 0 <= x -> 0 <= y -> 0 <= Double.mul x y.
Proof. intros Hx Hy. apply round_nonneg. now apply Qmult_le_0_compat. Qed.

Lemma div_nonneg (x y : Q) : 0 <= x -> 0 < y -> 0 <= Double.div x y.
Proof.
  intros Hx Hy. apply round_nonneg.
  apply Qle_shift_div_l; [exact Hy | lra].
Qed.

Lemma round_nonpos (x : Q) : x <= 0 -> Double.round x <= 0.
Proof.
  intro H.
  destruct (Qeq_dec x 0) as [E0 | Hne].
  - rewrite (round_0 x E0). apply Qle_refl.
  - rewrite (round_unfold x Hne).
    setoid_replace 0 with (0 * 2 ^ (- Double.places x)) by ring.
    apply Qmult_le_compat_r; [| apply Qlt_le_weak, pow2_pos].
    change 0 with (inject_Z 0). rewrite <- Zle_Qle.
    apply nearest_even_le. change (inject_Z 0) with 0.
    setoid_replace 0 with (0 * 2 ^ Double.places x) by ring.
    apply Qmult_le_compat_r; [exact H | apply Qlt_le_weak, pow2_pos].
Qed.

(** Rounding stays below an integer bound that is not negative, however
    far below it the number lies. *)
Lemma round_le_bound (x : Q) (z : Z) :
  (0 <= z < 9007199254740992)%Z -> x <= inject_Z z ->
  Double.round x <= inject_Z z.
Proof.
  intros [Hz0 Hz1] H.
  rewrite Zle_Qle in Hz0. rewrite Zlt_Qlt in Hz1.
  change (inject_Z 0) with 0 in Hz0.
  destruct (Qlt_le_dec x 0) as [Hneg | Hpos].
  - apply Qle_trans with 0; [| exact Hz0].
    apply round_nonpos. now apply Qlt_le_weak.
  - apply round_le_Z; [| exact H].
    rewrite Qabs_pos by exact Hpos.
    change (2 ^ 53) with (inject_Z 9007199254740992).
    eapply Qle_lt_trans; eassumption.
Qed.

Lemma add_le_bound (x y : Q) (ux uy : Z) :
  (0 <= ux + uy < 9007199254740992)%Z ->
  x <= inject_Z ux -> y <= inject_Z uy ->
  Double.add x y <= inject_Z (ux + uy).
Proof.
  intros Hu Hx Hy. unfold Double.add.
  apply round_le_bound; [exact Hu |].
  rewrite inject_Z_plus. lra.
Qed.

(** Below 1024 one rounding is off by [2 ^ -44] at most. *)
Lemma round_error_1024 (x : Q) :
  Qabs x < 1024 ->
  - (1 # 17592186044416) <= Double.round x - x <= 1 # 17592186044416.
Proof.
  intro H. apply Qabs_Qle_condition.
  apply (round_error x 10); [lia | exact H].
Qed.

(** [Double] and the binary64 of the standard library agree where the page
    leaves the exact numbers: the double next to 3.3, the fifth of 3, the
    third of 1 and a quotient that is exact. *)
Example round_agrees :
  Double.round (33 # 10)
  == Binary64.value (Binary64.div (Binary64.of_Z 33) (Binary64.of_Z 10)) /\
  Double.div 3 5
  == Binary64.value (Binary64.div (Binary64.of_Z 3) (Binary64.of_Z 5)) /\
  Double.div 1 3
  == Binary64.value (Binary64.div (Binary64.of_Z 1) (Binary64.of_Z 3)) /\
  Double.div 2975 70
  == Binary64.value (Binary64.div (Binary64.of_Z 2975) (Binary64.of_Z 70)) /\
  Double.mul (Double.div (Double.round (33 # 10)) 5) 50
  == Binary64.value
       (Binary64.mul
          (Binary64.div
             (Binary64.div (Binary64.of_Z 33) (Binary64.of_Z 10))
             (Binary64.of_Z 5))
          (Binary64.of_Z 50)).
Proof. repeat split; vm_compute; reflexivity. Qed.

(** ** The pieces of [split] *)

Lemma split_not_nil (sep : ascii) (s : string) : split sep s <> [].
Proof.
  induction s as [| c rest IH]; cbn [split].
  - discriminate.
  - destruct (Ascii.eqb c sep); [discriminate |].
    destruct (split sep rest); discriminate.
Qed.

(** A string has one piece more than it has separators. *)
Lemma split_size (sep : ascii) (s : string) :
  size (split sep s) = (1 + occurrences sep s)%Z.
Proof.
  unfold size.
  induction s as [| c rest IH]; cbn [split occurrences].
  - reflexivity.
  - destruct (Ascii.eqb c sep).
    + cbn [List.length]. lia.
    + pose proof (split_not_nil sep rest) as Hne.
      destruct (split sep rest) as [| piece pieces]; [contradiction |].
      cbn [List.length] in *. lia.
Qed.

Lemma occurrences_nonneg (c : ascii) (s : string) : (0 <= occurrences c s)%Z.
Proof.
  induction s as [| d rest IH]; cbn [occurrences]; [lia |].
  destruct (Ascii.eqb d c); lia.
Qed.

(** Lower-casing neither makes nor removes a space. *)
Lemma toLowerCase_unit_space (c : ascii) :
  Ascii.eqb (toLowerCase_unit c) " " = Ascii.eqb c " ".
Proof.
  destruct c as [[] [] [] [] [] [] [] []]; reflexivity.
Qed.

Lemma occurrences_space_toLowerCase (s : string) :
  occurrences " " (toLowerCase s) = occurrences " " s.
Proof.
  induction s as [| c rest IH]; cbn [toLowerCase occurrences].
  - reflexivity.
  - rewrite toLowerCase_unit_space, IH. reflexivity.
Qed.

(** ** The fields of the computed score *)

Section Fields.

Variables (name address : string) (apiData : Api.Data).

Lemma nameLength_eq :
  nameLength (details (score_of name address apiData))
  = nameLength (score_name name score_init).
Proof.
  unfold score_of, score_api, score_address.
  destruct (0 <? length address)%Z; reflexivity.
Qed.

Lemma keywordOptimization_eq :
  keywordOptimization (details (score_of name address apiData))
  = keywordOptimization (score_name name score_init).
Proof.
  unfold score_of, score_api, score_address.
  destruct (0 <? length address)%Z; reflexivity.
Qed.

Lemma addressCompleteness_eq :
  addressCompleteness (details (score_of name address apiData)) =
  if (0 <? length address)%Z
  then Math_min (inject_Z (size (split "," address)) * 10) 40
  else 0.
Proof.
  unfold score_of, score_api, score_address, score_name.
  destruct (0 <? length address)%Z; destruct (0 <? length name)%Z;
    reflexivity.
Qed.

Lemma googleRanking_eq :
  googleRanking (details (score_of name address apiData)) =
  Math_max 0 (100 - inject_Z (Api.googlePosition (Api.searchRanking apiData))).
Proof. reflexivity. Qed.

Lemma socialMediaPresence_eq :
  socialMediaPresence (details (score_of name address apiData)) =
  (inject_Z
     (size (filter
              (fun platform =>
                 match Api.get (Api.socialMedia apiData) platform with
                 | Some data => Api.exists_ data
                 | None => false
                 end) socialPlatforms))
   / inject_Z (size socialPlatforms)) * 100.
Proof. reflexivity. Qed.

Lemma localSEO_eq :
  localSEO (details (score_of name address apiData)) =
  Math_min 100
    (Double.add
       (Double.mul
          (Double.div
             (Double.add (Api.rating (Api.google (Api.reviews apiData)))
                (Api.rating (Api.yelp (Api.reviews apiData)))) 2) 10)
       (Double.div
          (Double.add
             (inject_Z (Api.count (Api.google (Api.reviews apiData))))
             (inject_Z (Api.count (Api.yelp (Api.reviews apiData))))) 10)).
Proof. reflexivity. Qed.

Lemma onlineReviews_eq :
  onlineReviews (details (score_of name address apiData)) =
  Math_min 100
    (Double.add
       (Double.mul
          (Double.div (Api.rating (Api.google (Api.reviews apiData))) 5) 50)
       (Double.mul
          (Double.div (Api.rating (Api.yelp (Api.reviews apiData))) 5) 50)).
Proof. reflexivity. Qed.

End Fields.

(** ** The total *)

Lemma score_of_total (name address : string) (apiData : Api.Data) :
  total (score_of name address apiData) =
  Math_round
    (Double.div
       (double_sum_of_details (details (score_of name address apiData))) 7).
Proof.
  unfold score_of. cbn [total details].
  generalize (score_api apiData
                (score_address address (score_name name score_init))).
  intro score. unfold double_sum_of_details, Object_values.
  cbn [fold_left]. reflexivity.
Qed.

(** The sample scores 30 + 40 + 30 + 58 + 50 + 48.5 + 85 = 341.5, a seventh
    of which rounds to 49. *)
Example total_sample :
  total (score_of sample_name sample_address sample_api) = 49%Z.
Proof. vm_compute. reflexivity. Qed.

(** ** The name *)

(** The three branches of the conditional that sets [score.nameLength]. *)
Lemma nameLength_cases (name address : string) (apiData : Api.Data) :
  (0 < length name)%Z ->
  let L := length name in
  let n := nameLength (details (score_of name address apiData)) in
  ((15 <= L <= 30)%Z -> n = 30) /\
  ((L < 15)%Z -> n = inject_Z (Math_round ((inject_Z L / 15) * 30))) /\
  ((30 < L)%Z -> n = inject_Z (Math_round ((40 / inject_Z L) * 30))).
Proof.
  intros HL L n. subst n. rewrite nameLength_eq. unfold score_name.
  fold L.
  apply Z.ltb_lt in HL. fold L in HL. rewrite HL.
  cbn [nameLength set_nameLength set_keywordOptimization].
  apply Z.ltb_lt in HL.
  repeat split; intro H.
  - replace ((15 <=? L) && (L <=? 30))%Z with true; [reflexivity |].
    symmetry. apply andb_true_iff. split; apply Z.leb_le; lia.
  - replace ((15 <=? L) && (L <=? 30))%Z with false.
    + replace (L <? 15)%Z with true; [reflexivity |].
      symmetry. apply Z.ltb_lt. lia.
    + symmetry. apply andb_false_iff. left. apply Z.leb_gt. lia.
  - replace ((15 <=? L) && (L <=? 30))%Z with false.
    + replace (L <? 15)%Z with false; [reflexivity |].
      symmetry. apply Z.ltb_ge. lia.
    + symmetry. apply andb_false_iff. right. apply Z.leb_gt. lia.
Qed.

Lemma length_pos (s : string) : s <> "" -> (0 < length s)%Z.
Proof.
  intro Hne. pose proof (length_nonneg s). pose proof (length_zero s).
  destruct (Z.eq_dec (length s) 0); [tauto | lia].
Qed.

(** C2.  A name that is not empty and has [L] code units scores 30 when
    [15 <= L <= 30], [round (L / 15 * 30)] when [L < 15] and
    [round ((40 / L) * 30)] when [L > 30]. *)
Theorem nameLength_by_length (name address : string) (apiData : Api.Data) :
  name <> "" ->
  let L := length name in
  let n := nameLength (details (score_of name address apiData)) in
  ((15 <= L <= 30)%Z -> n == 30) /\
  ((L < 15)%Z -> n == inject_Z (Math_round ((inject_Z L / 15) * 30))) /\
  ((30 < L)%Z -> n == inject_Z (Math_round ((40 / inject_Z L) * 30))).
Proof.
  intros Hne L n.
  destruct (nameLength_cases name address apiData (length_pos name Hne))
    as (Hmid & Hlow & Hhigh).
  repeat split; intro H; subst n L.
  - rewrite (Hmid H). reflexivity.
  - rewrite (Hlow H). reflexivity.
  - rewrite (Hhigh H). reflexivity.
Qed.

Lemma nameLength_by_length_witness :
  sample_name <> "" /\
  nameLength (details (score_of sample_name sample_address sample_api)) == 30.
Proof.
  split; [discriminate |].
  apply (nameLength_by_length sample_name sample_address sample_api);
    [discriminate | vm_compute; split; discriminate].
Defined.

(** The ramp below 15 is twice the length. *)
Lemma nameLength_short (name address : string) (apiData : Api.Data) :
  (0 < length name < 15)%Z ->
  nameLength (details (score_of name address apiData))
  == inject_Z (2 * length name).
Proof.
  intros [Hpos Hlt].
  destruct (nameLength_cases name address apiData Hpos) as (_ & H & _).
  rewrite (H Hlt).
  rewrite (Math_round_Qeq _ (inject_Z (2 * length name))).
  - rewrite Math_round_Z. reflexivity.
  - rewrite inject_Z_mult. field.
Qed.

(** The taper above 30 is [1200 / L] rounded, an integer division. *)
Lemma nameLength_long (name address : string) (apiData : Api.Data) :
  (30 < length name)%Z ->
  nameLength (details (score_of name address apiData))
  == inject_Z ((2400 + length name) / (2 * length name)).
Proof.
  intro Hlt.
  assert (Hpos : (0 < length name)%Z) by lia.
  destruct (nameLength_cases name address apiData Hpos) as (_ & _ & H).
  rewrite (H Hlt).
  destruct (length name) as [| p | p] eqn:E; try lia.
  rewrite (Math_round_Qeq _ (1200 # p)).
  - rewrite Math_round_div. reflexivity.
  - unfold Qeq, Qdiv, Qmult, Qinv. cbn [inject_Z Qnum Qden]. lia.
Qed.

(** ** The ranking *)

(** C6.  For a position [p >= 0] the ranking score is [max 0 (100 - p)]:
    100 at position 0 and 0 from position 100 on. *)
Theorem googleRanking_clamped (name address : string) (apiData : Api.Data) :
  (0 <= Api.googlePosition (Api.searchRanking apiData))%Z ->
  let p := Api.googlePosition (Api.searchRanking apiData) in
  let r := googleRanking (details (score_of name address apiData)) in
  r == inject_Z (Z.max 0 (100 - p)) /\
  (p = 0%Z -> r == 100) /\
  ((100 <= p)%Z -> r == 0).
Proof.
  intros Hpos p r. subst r. rewrite googleRanking_eq. fold p.
  unfold Math_max.
  assert (Hmain : Qmax 0 (100 - inject_Z p) == inject_Z (Z.max 0 (100 - p))).
  { destruct (Z.le_ge_cases p 100) as [Hle | Hge].
    - rewrite Z.max_r by lia. rewrite Q.max_r.
      + unfold Zminus. rewrite inject_Z_plus, inject_Z_opp. reflexivity.
      + rewrite Zle_Qle in Hle. change (inject_Z 100) with 100 in Hle. lra.
    - rewrite Z.max_l by lia. rewrite Q.max_l; [reflexivity |].
      rewrite Zle_Qle in Hge. change (inject_Z 100) with 100 in Hge. lra. }
  split; [exact Hmain |]. split; intro H; rewrite Hmain.
  - rewrite H. reflexivity.
  - rewrite Z.max_l by lia. reflexivity.
Qed.

Lemma googleRanking_clamped_witness :
  (0 <= Api.googlePosition (Api.searchRanking sample_api))%Z /\
  googleRanking (details (score_of sample_name sample_address sample_api))
  == inject_Z (Z.max 0 (100 - 42)).
Proof.
  split; [vm_compute; discriminate |].
  apply (googleRanking_clamped sample_name sample_address sample_api).
  vm_compute; discriminate.
Defined.

(** ** The address *)

(** C7.  An address that is not empty scores [min (segments * 10) 40],
    where [segments], the number of pieces between commas, is one more than
    the number of commas.  The empty address scores 0, and the empty name
    scores 0 for its length and for its keywords: [score_of] is a total
    function and [calculateSEOMetrics] returns its value. *)
Theorem addressCompleteness_by_segments
    (name address : string) (apiData : Api.Data) :
  let d := details (score_of name address apiData) in
  let segments := size (split "," address) in
  segments = (1 + occurrences "," address)%Z /\
  (address <> "" ->
   addressCompleteness d == Math_min (inject_Z segments * 10) 40) /\
  (address = "" -> addressCompleteness d == 0) /\
  (name = "" -> nameLength d == 0 /\ keywordOptimization d == 0) /\
  (forall st : HomeState,
     _businessName st = name -> _businessAddress st = address ->
     calculateSEOMetrics st (Resolved apiData)
     = Return (score_of name address apiData)).
Proof.
  intros d segments. subst d segments.
  split; [apply split_size |].
  split; [| split; [| split]].
  - intro Hne. rewrite addressCompleteness_eq.
    apply length_pos, Z.ltb_lt in Hne. rewrite Hne. reflexivity.
  - intro E. subst address. rewrite addressCompleteness_eq. reflexivity.
  - intro E. subst name.
    rewrite nameLength_eq, keywordOptimization_eq. split; reflexivity.
  - intros st Hn Ha. cbn [calculateSEOMetrics]. rewrite Hn, Ha. reflexivity.
Qed.

(** The address of the scenario in section 8 has four segments. *)
Lemma addressCompleteness_by_segments_witness :
  sample_address <> "" /\
  addressCompleteness
    (details (score_of sample_name sample_address sample_api))
  == Math_min (inject_Z 4 * 10) 40.
Proof.
  split; [discriminate |].
  apply (addressCompleteness_by_segments
           sample_name sample_address sample_api).
  discriminate.
Defined.

Example addressCompleteness_empty :
  addressCompleteness (details (score_of "" "" sample_api)) == 0 /\
  nameLength (details (score_of "" "" sample_api)) == 0 /\
  keywordOptimization (details (score_of "" "" sample_api)) == 0.
Proof. repeat split; reflexivity. Qed.

(** ** The overall status *)

(** C8.  The label is GOOD exactly from 70 on, FAIR exactly from 40 up to
    but not including 70, and POOR exactly below 40. *)
Theorem getOverallStatus_bands (total : Z) :
  (text (getOverallStatus total) = "GOOD" <-> (70 <= total)%Z) /\
  (text (getOverallStatus total) = "FAIR" <-> (40 <= total < 70)%Z) /\
  (text (getOverallStatus total) = "POOR" <-> (total < 40)%Z).
Proof.
  unfold getOverallStatus.
  destruct (Z.geb_spec total 70) as [H70 | H70];
    [| destruct (Z.geb_spec total 40) as [H40 | H40]];
    cbn [text]; (split; [| split]); (split; intro H);
    try reflexivity; try discriminate; try lia.
Qed.

(** Every total gets one of the three labels. *)
Lemma getOverallStatus_total (total : Z) :
  In (text (getOverallStatus total)) ["GOOD"; "FAIR"; "POOR"].
Proof.
  unfold getOverallStatus.
  destruct (total >=? 70)%Z; [| destruct (total >=? 40)%Z];
    cbn; auto.
Qed.

(** ** The keywords *)

Lemma keywordOptimization_cases (name address : string) (apiData : Api.Data) :
  keywordOptimization (details (score_of name address apiData)) =
  if (0 <? length name)%Z
  then Math_min (inject_Z (size (split " " (toLowerCase name))) * 10) 30
  else 0.
Proof.
  rewrite keywordOptimization_eq. unfold score_name.
  destruct (0 <? length name)%Z; reflexivity.
Qed.

Lemma toLowerCase_unit_whitespace (c : ascii) :
  is_whitespace (toLowerCase_unit c) = is_whitespace c.
Proof.
  destruct c as [[] [] [] [] [] [] [] []]; reflexivity.
Qed.

Lemma count_tokens_toLowerCase (in_token : bool) (s : string) :
  count_tokens in_token (toLowerCase s) = count_tokens in_token s.
Proof.
  revert in_token.
  induction s as [| c rest IH]; intro in_token;
    cbn [toLowerCase count_tokens].
  - reflexivity.
  - rewrite toLowerCase_unit_whitespace, !IH. reflexivity.
Qed.

(** On words set apart by single spaces a token ends at every space and at
    the end of the string. *)
Lemma count_tokens_spaced (after_char : bool) (s : string) :
  spaced_from after_char s = true ->
  count_tokens after_char s
  = ((if after_char then 0 else 1) + occurrences " " s)%Z.
Proof.
  revert after_char.
  induction s as [| c rest IH]; intros after_char H;
    cbn [spaced_from count_tokens occurrences] in *.
  - subst after_char. reflexivity.
  - destruct (Ascii.eqb_spec c " ") as [E | E].
    + subst c. apply andb_true_iff in H as [Ha Hrest]. subst after_char.
      cbn [is_whitespace]. change (is_whitespace " ") with true. cbn iota.
      rewrite (IH false Hrest). lia.
    + apply andb_true_iff in H as [Hc Hrest].
      apply negb_true_iff in Hc. rewrite Hc.
      rewrite (IH true Hrest). lia.
Qed.

Lemma whitespace_token_count_single_spaced (s : string) :
  single_spaced s = true ->
  whitespace_token_count s = (1 + occurrences " " s)%Z.
Proof.
  intro H. unfold whitespace_token_count.
  now rewrite (count_tokens_spaced false s H).
Qed.

(** C3, as the specification words it, fails: [split(' ')] cuts at every
    single space.  Two spaces in a row enclose an empty piece that counts as
    a keyword, so a name of two words scores 30 where its two tokens would
    give 20. *)
Lemma keywordOptimization_not_token_count :
  ~ (keywordOptimization
       (details (score_of double_spaced_name sample_address sample_api))
     == Math_min
          (inject_Z (whitespace_token_count (toLowerCase double_spaced_name))
           * 10) 30).
Proof.
  intro H. vm_compute in H. discriminate H.
Qed.

(** The other way round: a tab separates no keywords, so three words held
    apart by tabs score 10 where their three tokens would give 30. *)
Example keywordOptimization_tabs :
  keywordOptimization
    (details (score_of tabbed_name sample_address sample_api)) == 10 /\
  whitespace_token_count (toLowerCase tabbed_name) = 3%Z.
Proof. split; reflexivity. Qed.

(** C3, amended.  The empty name scores 0.  A name that is not empty scores
    [min (pieces * 10) 30], where [pieces] is the number of pieces its
    lower-cased form falls into when cut at every space character: one more
    than the number of spaces in the name, empty pieces counted, other white
    space cutting nothing.  Where the words of the name are set apart by
    single spaces and by nothing else, that is [min (tokens * 10) 30] for
    the whitespace-separated tokens of the lower-cased name. *)
Theorem keywordOptimization_by_pieces
    (name address : string) (apiData : Api.Data) :
  let k := keywordOptimization (details (score_of name address apiData)) in
  let pieces := size (split " " (toLowerCase name)) in
  (name = "" -> k == 0) /\
  (name <> "" -> k == Math_min (inject_Z pieces * 10) 30) /\
  pieces = (1 + occurrences " " name)%Z /\
  (single_spaced name = true ->
   k == Math_min
          (inject_Z (whitespace_token_count (toLowerCase name)) * 10) 30).
Proof.
  intros k pieces. subst k pieces.
  rewrite keywordOptimization_cases.
  rewrite split_size, occurrences_space_toLowerCase.
  split; [| split; [| split]].
  - intro E. subst name. reflexivity.
  - intro Hne. apply length_pos, Z.ltb_lt in Hne. rewrite Hne. reflexivity.
  - reflexivity.
  - intro Hs.
    assert (Hne : name <> "").
    { intro E. subst name. discriminate Hs. }
    apply length_pos, Z.ltb_lt in Hne. rewrite Hne.
    unfold whitespace_token_count. rewrite count_tokens_toLowerCase.
    fold (whitespace_token_count name).
    rewrite (whitespace_token_count_single_spaced name Hs). reflexivity.
Qed.

Lemma keywordOptimization_by_pieces_witness :
  sample_name <> "" /\ single_spaced sample_name = true /\
  keywordOptimization
    (details (score_of sample_name sample_address sample_api))
  == Math_min
       (inject_Z (whitespace_token_count (toLowerCase sample_name)) * 10) 30.
Proof.
  split; [discriminate |]. split; [reflexivity |].
  apply (keywordOptimization_by_pieces sample_name sample_address sample_api).
  reflexivity.
Defined.

(** ** The range of the scores *)

Lemma in_range_Qeq (x y : Q) : x == y -> in_range y -> in_range x.
Proof.
  unfold in_range. intros E [Hlo Hhi]. rewrite E. now split.
Qed.

Lemma in_range_Z (z : Z) : (0 <= z <= 100)%Z -> in_range (inject_Z z).
Proof.
  intros [Hlo Hhi]. unfold in_range.
  rewrite Zle_Qle in Hlo, Hhi. now split.
Qed.

(** A capped product of a count is in range when the cap is. *)
Lemma in_range_capped (n : Z) (cap : Q) :
  (0 <= n)%Z -> 0 <= cap <= 100 ->
  in_range (Math_min (inject_Z n * 10) cap).
Proof.
  intros Hn [Hlo Hhi]. unfold in_range, Math_min.
  rewrite Zle_Qle in Hn. change (inject_Z 0) with 0 in Hn.
  split.
  - apply Q.min_glb; lra.
  - apply Qle_trans with cap; [apply Q.le_min_r | exact Hhi].
Qed.

Lemma nameLength_in_range (name address : string) (apiData : Api.Data) :
  in_range (nameLength (details (score_of name address apiData))).
Proof.
  pose proof (length_nonneg name) as Hnn.
  destruct (Z.eq_dec (length name) 0) as [E0 | Hne].
  - apply length_zero in E0. subst name. rewrite nameLength_eq.
    cbn. unfold in_range. lra.
  - assert (Hpos : (0 < length name)%Z) by lia.
    destruct (Z.lt_ge_cases (length name) 15) as [Hlt | Hge].
    + eapply in_range_Qeq; [apply nameLength_short; lia |].
      apply in_range_Z. lia.
    + destruct (Z.le_gt_cases (length name) 30) as [Hle | Hgt].
      * destruct (nameLength_cases name address apiData Hpos) as (H & _).
        rewrite H by lia. unfold in_range. lra.
      * eapply in_range_Qeq; [apply nameLength_long; lia |].
        apply in_range_Z. split.
        -- apply Z.div_pos; lia.
        -- apply Z.div_le_upper_bound; lia.
Qed.

Lemma keywordOptimization_in_range
    (name address : string) (apiData : Api.Data) :
  in_range (keywordOptimization (details (score_of name address apiData))).
Proof.
  rewrite keywordOptimization_cases.
  destruct (0 <? length name)%Z.
  - apply in_range_capped; [apply size_nonneg | lra].
  - unfold in_range. lra.
Qed.

Lemma addressCompleteness_in_range
    (name address : string) (apiData : Api.Data) :
  in_range (addressCompleteness (details (score_of name address apiData))).
Proof.
  rewrite addressCompleteness_eq.
  destruct (0 <? length address)%Z.
  - apply in_range_capped; [apply size_nonneg | lra].
  - unfold in_range. lra.
Qed.

Lemma googleRanking_in_range (name address : string) (apiData : Api.Data) :
  (0 <= Api.googlePosition (Api.searchRanking apiData))%Z ->
  in_range (googleRanking (details (score_of name address apiData))).
Proof.
  intro Hpos. rewrite googleRanking_eq. unfold in_range, Math_max.
  rewrite Zle_Qle in Hpos. change (inject_Z 0) with 0 in Hpos.
  split.
  - apply Q.le_max_l.
  - apply Q.max_lub; lra.
Qed.

Lemma socialMediaPresence_in_range
    (name address : string) (apiData : Api.Data) :
  in_range (socialMediaPresence (details (score_of name address apiData))).
Proof.
  rewrite socialMediaPresence_eq.
  set (found := filter _ socialPlatforms).
  assert (Hle : (0 <= size found <= 4)%Z).
  { unfold size. pose proof (filter_length_le
      (fun platform =>
         match Api.get (Api.socialMedia apiData) platform with
         | Some data => Api.exists_ data
         | None => false
         end) socialPlatforms) as H.
    fold found in H. cbn [socialPlatforms List.length] in H. lia. }
  destruct Hle as [Hlo Hhi]. rewrite Zle_Qle in Hlo, Hhi.
  change (inject_Z 0) with 0 in Hlo. change (inject_Z 4) with 4 in Hhi.
  change (inject_Z (size socialPlatforms)) with 4.
  eapply in_range_Qeq with (y := inject_Z (size found) * 25); [field |].
  unfold in_range. split; lra.
Qed.

Lemma localSEO_in_range (name address : string) (apiData : Api.Data) :
  valid_signals apiData ->
  in_range (localSEO (details (score_of name address apiData))).
Proof.
  intros (_ & [Hg _] & [Hy _] & Hcg & Hcy).
  rewrite localSEO_eq. unfold in_range, Math_min.
  rewrite Zle_Qle in Hcg, Hcy. change (inject_Z 0) with 0 in Hcg, Hcy.
  split.
  - apply Q.min_glb; [lra |].
    apply add_nonneg.
    + apply mul_nonneg; [| lra].
      apply div_nonneg; [| reflexivity]. now apply add_nonneg.
    + apply div_nonneg; [| reflexivity]. now apply add_nonneg.
  - apply Q.le_min_l.
Qed.

Lemma onlineReviews_in_range (name address : string) (apiData : Api.Data) :
  valid_signals apiData ->
  in_range (onlineReviews (details (score_of name address apiData))).
Proof.
  intros (_ & [Hg _] & [Hy _] & _).
  rewrite onlineReviews_eq. unfold in_range, Math_min.
  split.
  - apply Q.min_glb; [lra |].
    apply add_nonneg; (apply mul_nonneg; [| lra]);
      (apply div_nonneg; [assumption | reflexivity]).
  - apply Q.le_min_l.
Qed.

Lemma score_of_details_in_range
    (name address : string) (apiData : Api.Data) :
  valid_signals apiData ->
  details_in_range (details (score_of name address apiData)).
Proof.
  intro Hvalid. unfold details_in_range.
  repeat match goal with |- in_range _ /\ _ => split end.
  - apply nameLength_in_range.
  - apply addressCompleteness_in_range.
  - apply keywordOptimization_in_range.
  - apply googleRanking_in_range. apply Hvalid.
  - apply socialMediaPresence_in_range.
  - now apply localSEO_in_range.
  - now apply onlineReviews_in_range.
Qed.

(** ** The sum and the mean in doubles *)

(** Integer bounds of the seven sub-scores carry over to their sum in
    doubles. *)
Lemma double_sum_between (d : Details)
    (l1 u1 l2 u2 l3 u3 l4 u4 l5 u5 l6 u6 l7 u7 : Z) :
  (0 <= l1 /\ 0 <= l2 /\ 0 <= l3 /\ 0 <= l4 /\ 0 <= l5 /\ 0 <= l6 /\
   0 <= l7)%Z ->
  (u1 <= 1000 /\ u2 <= 1000 /\ u3 <= 1000 /\ u4 <= 1000 /\ u5 <= 1000 /\
   u6 <= 1000 /\ u7 <= 1000)%Z ->
  inject_Z l1 <= nameLength d <= inject_Z u1 ->
  inject_Z l2 <= addressCompleteness d <= inject_Z u2 ->
  inject_Z l3 <= keywordOptimization d <= inject_Z u3 ->
  inject_Z l4 <= googleRanking d <= inject_Z u4 ->
  inject_Z l5 <= socialMediaPresence d <= inject_Z u5 ->
  inject_Z l6 <= localSEO d <= inject_Z u6 ->
  inject_Z l7 <= onlineReviews d <= inject_Z u7 ->
  inject_Z (l1 + l2 + l3 + l4 + l5 + l6 + l7) <= double_sum_of_details d
  <= inject_Z (u1 + u2 + u3 + u4 + u5 + u6 + u7).
Proof.
  intros Hl Hu H1 H2 H3 H4 H5 H6 H7. unfold double_sum_of_details.
  assert (S0 : inject_Z 0 <= 0 <= inject_Z 0) by (split; apply Qle_refl).
  assert (S1 : inject_Z (0 + l1) <= Double.add 0 (nameLength d)
               <= inject_Z (0 + u1))
    by (apply add_between; try lia; assumption).
  assert (S2 : inject_Z (0 + l1 + l2)
               <= Double.add (Double.add 0 (nameLength d))
                    (addressCompleteness d)
               <= inject_Z (0 + u1 + u2))
    by (apply add_between; try lia; assumption).
  match type of S2 with _ <= ?t <= _ => set (s2 := t) in * end.
  assert (S3 : inject_Z (0 + l1 + l2 + l3)
               <= Double.add s2 (keywordOptimization d)
               <= inject_Z (0 + u1 + u2 + u3))
    by (apply add_between; try lia; assumption).
  match type of S3 with _ <= ?t <= _ => set (s3 := t) in * end.
  assert (S4 : inject_Z (0 + l1 + l2 + l3 + l4)
               <= Double.add s3 (googleRanking d)
               <= inject_Z (0 + u1 + u2 + u3 + u4))
    by (apply add_between; try lia; assumption).
  match type of S4 with _ <= ?t <= _ => set (s4 := t) in * end.
  assert (S5 : inject_Z (0 + l1 + l2 + l3 + l4 + l5)
               <= Double.add s4 (socialMediaPresence d)
               <= inject_Z (0 + u1 + u2 + u3 + u4 + u5))
    by (apply add_between; try lia; assumption).
  match type of S5 with _ <= ?t <= _ => set (s5 := t) in * end.
  assert (S6 : inject_Z (0 + l1 + l2 + l3 + l4 + l5 + l6)
               <= Double.add s5 (localSEO d)
               <= inject_Z (0 + u1 + u2 + u3 + u4 + u5 + u6))
    by (apply add_between; try lia; assumption).
  match type of S6 with _ <= ?t <= _ => set (s6 := t) in * end.
  assert (S7 : inject_Z (0 + l1 + l2 + l3 + l4 + l5 + l6 + l7)
               <= Double.add s6 (onlineReviews d)
               <= inject_Z (0 + u1 + u2 + u3 + u4 + u5 + u6 + u7))
    by (apply add_between; try lia; assumption).
  rewrite !Z.add_0_l in S7. exact S7.
Qed.

(** Caps alone carry over as well. *)
Lemma double_sum_le (d : Details) (u1 u2 u3 u4 u5 u6 u7 : Z) :
  (0 <= u1 <= 1000 /\ 0 <= u2 <= 1000 /\ 0 <= u3 <= 1000 /\
   0 <= u4 <= 1000 /\ 0 <= u5 <= 1000 /\ 0 <= u6 <= 1000 /\
   0 <= u7 <= 1000)%Z ->
  nameLength d <= inject_Z u1 ->
  addressCompleteness d <= inject_Z u2 ->
  keywordOptimization d <= inject_Z u3 ->
  googleRanking d <= inject_Z u4 ->
  socialMediaPresence d <= inject_Z u5 ->
  localSEO d <= inject_Z u6 ->
  onlineReviews d <= inject_Z u7 ->
  double_sum_of_details d <= inject_Z (u1 + u2 + u3 + u4 + u5 + u6 + u7).
Proof.
  intros Hu H1 H2 H3 H4 H5 H6 H7. unfold double_sum_of_details.
  assert (S0 : 0 <= inject_Z 0) by apply Qle_refl.
  assert (S1 : Double.add 0 (nameLength d) <= inject_Z (0 + u1))
    by (apply add_le_bound; try lia; assumption).
  match type of S1 with ?t <= _ => set (s1 := t) in * end.
  assert (S2 : Double.add s1 (addressCompleteness d)
               <= inject_Z (0 + u1 + u2))
    by (apply add_le_bound; try lia; assumption).
  match type of S2 with ?t <= _ => set (s2 := t) in * end.
  assert (S3 : Double.add s2 (keywordOptimization d)
               <= inject_Z (0 + u1 + u2 + u3))
    by (apply add_le_bound; try lia; assumption).
  match type of S3 with ?t <= _ => set (s3 := t) in * end.
  assert (S4 : Double.add s3 (googleRanking d)
               <= inject_Z (0 + u1 + u2 + u3 + u4))
    by (apply add_le_bound; try lia; assumption).
  match type of S4 with ?t <= _ => set (s4 := t) in * end.
  assert (S5 : Double.add s4 (socialMediaPresence d)
               <= inject_Z (0 + u1 + u2 + u3 + u4 + u5))
    by (apply add_le_bound; try lia; assumption).
  match type of S5 with ?t <= _ => set (s5 := t) in * end.
  assert (S6 : Double.add s5 (localSEO d)
               <= inject_Z (0 + u1 + u2 + u3 + u4 + u5 + u6))
    by (apply add_le_bound; try lia; assumption).
  match type of S6 with ?t <= _ => set (s6 := t) in * end.
  assert (S7 : Double.add s6 (onlineReviews d)
               <= inject_Z (0 + u1 + u2 + u3 + u4 + u5 + u6 + u7))
    by (apply add_le_bound; try lia; assumption).
  rewrite !Z.add_0_l in S7. exact S7.
Qed.

(** The sum in doubles of seven scores in range lies between 0 and 700 and
    within [7 * 2 ^ -44] of their exact sum. *)
Lemma double_sum_error (d : Details) :
  details_in_range d ->
  0 <= double_sum_of_details d <= 700 /\
  - (7 # 17592186044416) <= double_sum_of_details d - sum_of_details d
  <= 7 # 17592186044416.
Proof.
  intros (H1 & H2 & H3 & H4 & H5 & H6 & H7).
  unfold in_range in *. unfold double_sum_of_details, sum_of_details.
  set (a1 := nameLength d) in *. set (a2 := addressCompleteness d) in *.
  set (a3 := keywordOptimization d) in *. set (a4 := googleRanking d) in *.
  set (a5 := socialMediaPresence d) in *. set (a6 := localSEO d) in *.
  set (a7 := onlineReviews d) in *.
  assert (Hstep : forall (acc a : Q) (hi : Z),
             (0 <= hi <= 600)%Z ->
             0 <= acc <= inject_Z hi -> 0 <= a <= 100 ->
             0 <= Double.add acc a <= inject_Z (hi + 100) /\
             - (1 # 17592186044416) <= Double.add acc a - (acc + a)
             <= 1 # 17592186044416).
  { intros acc a hi Hhi Hacc Ha. split.
    - assert (Hb : inject_Z (0 + 0) <= Double.add acc a
                   <= inject_Z (hi + 100)).
      { apply add_between; try lia; [exact Hacc | exact Ha]. }
      exact Hb.
    - unfold Double.add. apply round_error_1024.
      apply Qabs_Qlt_condition.
      destruct Hacc as [Hacc1 Hacc2].
      assert (Hle : inject_Z hi <= 600).
      { change 600 with (inject_Z 600). rewrite <- Zle_Qle. lia. }
      split; lra. }
  assert (B0 : 0 <= 0 <= inject_Z 0) by (split; apply Qle_refl).
  destruct (Hstep 0 a1 0%Z ltac:(lia) B0 H1) as [B1 E1].
  destruct (Hstep _ a2 100%Z ltac:(lia) B1 H2) as [B2 E2].
  destruct (Hstep _ a3 200%Z ltac:(lia) B2 H3) as [B3 E3].
  destruct (Hstep _ a4 300%Z ltac:(lia) B3 H4) as [B4 E4].
  destruct (Hstep _ a5 400%Z ltac:(lia) B4 H5) as [B5 E5].
  destruct (Hstep _ a6 500%Z ltac:(lia) B5 H6) as [B6 E6].
  destruct (Hstep _ a7 600%Z ltac:(lia) B6 H7) as [B7 E7].
  cbn [Z.add Pos.add Pos.succ Pos.add_carry] in *.
  set (s1 := Double.add 0 a1) in *. set (s2 := Double.add s1 a2) in *.
  set (s3 := Double.add s2 a3) in *. set (s4 := Double.add s3 a4) in *.
  set (s5 := Double.add s4 a5) in *. set (s6 := Double.add s5 a6) in *.
  set (s7 := Double.add s6 a7) in *.
  change (inject_Z 700) with 700 in B7.
  split; [exact B7 |]. split; lra.
Qed.

(** The mean the page computes lies within [2 ^ -43] of the exact mean,
    and the total within a half of the mean the page computes. *)
Lemma total_near_mean (name address : string) (apiData : Api.Data) :
  valid_signals apiData ->
  Qabs (inject_Z (total (score_of name address apiData))
        - sum_of_details (details (score_of name address apiData)) / 7)
  <= (1 # 2) + mean_slack.
Proof.
  intro Hvalid.
  pose proof (score_of_details_in_range name address apiData Hvalid) as Hd.
  destruct (double_sum_error _ Hd) as ([Hs0 Hs1] & He1 & He2).
  rewrite score_of_total.
  set (ds := double_sum_of_details (details (score_of name address apiData)))
    in *.
  set (es := sum_of_details (details (score_of name address apiData))) in *.
  assert (Hq : - (1 # 17592186044416) <= Double.div ds 7 - ds * (1 # 7)
               <= 1 # 17592186044416).
  { unfold Double.div, Qdiv. change (/ 7) with (1 # 7).
    apply round_error_1024. apply Qabs_Qlt_condition. split; lra. }
  set (q := Double.div ds 7) in *.
  assert (Hr : q - (1 # 2) <= inject_Z (Math_round q) <= q + (1 # 2)).
  { unfold Math_round.
    destruct (floor_bounds (q + (1 # 2))) as [Hf1 Hf2]. split; lra. }
  apply Qabs_Qle_condition.
  change mean_slack with (1 # 8796093022208).
  unfold Qdiv. change (/ 7) with (1 # 7).
  split; lra.
Qed.

Lemma tie_api_valid : valid_signals tie_api.
Proof.
  unfold valid_signals, tie_api.
  cbn [Api.searchRanking Api.googlePosition Api.reviews Api.google Api.yelp
       Api.rating Api.count].
  repeat split; vm_compute; discriminate.
Qed.

(** The yelp rating of [tie_api] is a double, the one nearest to 3.3. *)
Example tie_api_rating :
  Double.is_double (Api.rating (Api.yelp (Api.reviews tie_api))) /\
  Api.rating (Api.yelp (Api.reviews tie_api))
  == 3715469692580659 # 1125899906842624.
Proof. split; vm_compute; reflexivity. Qed.

(** On [tie_api] the page adds 30, 40, 30, 52, 50, 32.5 and the double
    below 63 to 297.5 and rounds the mean 42.5 to 43; the exact mean of the
    same seven sub-scores lies below 42.5 and rounds to 42. *)
Example total_at_the_tie :
  double_sum_of_details
    (details (score_of sample_name sample_address tie_api)) == 595 # 2 /\
  total (score_of sample_name sample_address tie_api) = 43%Z /\
  Math_round
    (sum_of_details (details (score_of sample_name sample_address tie_api))
     / 7) = 42%Z.
Proof. repeat split; vm_compute; reflexivity. Qed.

(** The same computation in the binary64 of the standard library gives
    the same review scores and the same mean. *)
Example tie_in_binary64 :
  localSEO (details (score_of sample_name sample_address tie_api))
  == Binary64.value Binary64.tie_localSEO /\
  onlineReviews (details (score_of sample_name sample_address tie_api))
  == Binary64.value Binary64.tie_onlineReviews /\
  Double.div
    (double_sum_of_details
       (details (score_of sample_name sample_address tie_api))) 7
  == Binary64.value Binary64.tie_mean /\
  Binary64.value Binary64.tie_mean == 85 # 2.
Proof. repeat split; vm_compute; reflexivity. Qed.

(** C1, as the specification words it, fails: the page adds and divides in
    doubles, and where the exact mean of the sub-scores lies just under a
    half the mean in doubles can be the half itself.  On [tie_api] the total
    is 43 and the exact mean rounds to 42. *)
Lemma total_not_exact_mean :
  ~ (exists s : SeoScore,
       calculateSEOMetrics sample_state (Resolved tie_api) = Return s /\
       total s =
       Math_round
         ((nameLength (details s) + addressCompleteness (details s)
           + keywordOptimization (details s) + googleRanking (details s)
           + socialMediaPresence (details s) + localSEO (details s)
           + onlineReviews (details s)) / 7)).
Proof.
  intros (s & E & H). injection E as <-.
  vm_compute in H. discriminate H.
Qed.

(** C1, amended.  Whenever the data arrives, [calculateSEOMetrics] returns a
    score whose [total] is [Math.round] of the mean as the page computes
    it: the seven sub-scores, taken as they are, added in doubles from 0 in
    the order of the fields, the sum divided by 7 in doubles.  For valid
    signals the total lies within a half and [2 ^ -43] of the exact mean of
    the seven sub-scores. *)
Theorem total_is_rounded_double_mean (st : HomeState) (apiData : Api.Data) :
  exists s : SeoScore,
    calculateSEOMetrics st (Resolved apiData) = Return s /\
    total s = Math_round (Double.div (double_sum_of_details (details s)) 7)
    /\
    (valid_signals apiData ->
     Qabs (inject_Z (total s) - sum_of_details (details s) / 7)
     <= (1 # 2) + mean_slack).
Proof.
  eexists. split; [reflexivity |].
  split; [apply score_of_total |].
  intro Hvalid. now apply total_near_mean.
Qed.

Lemma total_is_rounded_double_mean_witness :
  valid_signals tie_api /\
  exists s : SeoScore,
    calculateSEOMetrics sample_state (Resolved tie_api) = Return s /\
    Qabs (inject_Z (total s) - sum_of_details (details s) / 7)
    <= (1 # 2) + mean_slack.
Proof.
  split; [exact tie_api_valid |].
  destruct (total_is_rounded_double_mean sample_state tie_api)
    as (s & E & _ & Hnear).
  exists s. split; [exact E | exact (Hnear tie_api_valid)].
Defined.

(** C4, as the specification words it, fails on the same signals, which
    are valid: the sub-scores and the total are in range, but the total, 43,
    is not the rounded exact mean, 42. *)
Lemma score_not_exact_mean :
  ~ (valid_signals tie_api ->
     let s := score_of sample_name sample_address tie_api in
     details_in_range (details s) /\
     (0 <= total s <= 100)%Z /\
     total s = Math_round (sum_of_details (details s) / 7)).
Proof.
  intro H. destruct (H tie_api_valid) as (_ & _ & E).
  vm_compute in E. discriminate E.
Qed.

(** C4, amended.  For raw signals with a position that is not negative,
    ratings between 0 and 5 and counts that are not negative, each of the
    seven sub-scores lies between 0 and 100, and [total] is an integer
    between 0 and 100: [Math.round] of the mean of the seven sub-scores as
    the page computes it in doubles, which lies within a half and
    [2 ^ -43] of their exact mean. *)
Theorem score_in_range (name address : string) (apiData : Api.Data) :
  valid_signals apiData ->
  let s := score_of name address apiData in
  details_in_range (details s) /\
  (0 <= total s <= 100)%Z /\
  total s = Math_round (Double.div (double_sum_of_details (details s)) 7) /\
  Qabs (inject_Z (total s) - sum_of_details (details s) / 7)
  <= (1 # 2) + mean_slack.
Proof.
  intros Hvalid s. subst s.
  pose proof (score_of_details_in_range name address apiData Hvalid) as Hd.
  split; [exact Hd |].
  split; [| split; [apply score_of_total | now apply total_near_mean]].
  rewrite score_of_total. apply Math_round_between.
  destruct (double_sum_error _ Hd) as ([Hs0 Hs1] & _).
  unfold Double.div.
  apply round_between; [lia | lia |].
  change (inject_Z 0) with 0. change (inject_Z 100) with 100.
  unfold Qdiv. change (/ 7) with (1 # 7). split; lra.
Qed.

Lemma score_in_range_witness :
  valid_signals sample_api /\
  details_in_range
    (details (score_of sample_name sample_address sample_api)) /\
  (0 <= total (score_of sample_name sample_address sample_api) <= 100)%Z.
Proof.
  assert (Hv : valid_signals sample_api).
  { unfold valid_signals. cbn. repeat split; try lia; lra. }
  split; [exact Hv |].
  destruct (score_in_range sample_name sample_address sample_api Hv)
    as (Hd & Ht & _).
  split; [exact Hd | exact Ht].
Defined.

(** ** The recommendations *)

(** The array [missingSocialPlatforms] of the code holds the names of the
    platforms that are absent, in the order of the keys. *)
Lemma missingSocialPlatforms_eq (s : SeoScore) :
  map (fun entry : string * Api.Platform => fst entry)
    (filter (fun entry : string * Api.Platform =>
               negb (Api.exists_ (snd entry)))
       (Api.entries (socialMedia s)))
  = missing_platforms s.
Proof.
  unfold missing_platforms, Api.entries. cbn [filter snd].
  destruct (Api.exists_ (Api.facebook (socialMedia s)));
    destruct (Api.exists_ (Api.instagram (socialMedia s)));
    destruct (Api.exists_ (Api.twitter (socialMedia s)));
    destruct (Api.exists_ (Api.linkedin (socialMedia s)));
    reflexivity.
Qed.

Lemma some_platform_missing_test (s : SeoScore) :
  (0 <? size (missing_platforms s))%Z = true <-> some_platform_missing s.
Proof.
  unfold missing_platforms, some_platform_missing.
  destruct (Api.exists_ (Api.facebook (socialMedia s)));
    destruct (Api.exists_ (Api.instagram (socialMedia s)));
    destruct (Api.exists_ (Api.twitter (socialMedia s)));
    destruct (Api.exists_ (Api.linkedin (socialMedia s)));
    cbn; split; intro H; try reflexivity; try tauto; try discriminate;
    destruct H as [E | [E | [E | E]]]; discriminate.
Qed.

(** A test that decides a condition selects between one element and
    none. *)
Lemma rule_fires {A : Type} (test : bool) (condition : Prop) (x : A) :
  (test = true <-> condition) ->
  (condition -> (if test then [x] else []) = [x]) /\
  (~ condition -> (if test then [x] else []) = []).
Proof.
  intros [Hto Hfrom]. destruct test; split; intro H;
    try reflexivity.
  - exfalso. apply H, Hto. reflexivity.
  - apply Hfrom in H. discriminate.
Qed.

(** The three pushes, each behind its test. *)
Lemma generateRecommendations_pushes (s : SeoScore) :
  generateRecommendations s =
  ((if ltb (googleRanking (details s)) 70
    then [ranking_recommendation s] else [])
   ++ (if (0 <? size (missing_platforms s))%Z
       then [social_recommendation s] else [])
   ++ (if ((Api.count (Api.google (reviews s)) <? 100)
           || (Api.count (Api.yelp (reviews s)) <? 50))%Z
       then [reviews_recommendation s] else []))%list.
Proof.
  unfold generateRecommendations. rewrite missingSocialPlatforms_eq.
  fold (ranking_recommendation s) (social_recommendation s)
       (reviews_recommendation s).
  unfold push.
  destruct (ltb (googleRanking (details s)) 70);
    destruct (0 <? size (missing_platforms s))%Z;
    destruct ((Api.count (Api.google (reviews s)) <? 100)
              || (Api.count (Api.yelp (reviews s)) <? 50))%Z;
    reflexivity.
Qed.

Lemma few_reviews_test (s : SeoScore) :
  ((Api.count (Api.google (reviews s)) <? 100)
   || (Api.count (Api.yelp (reviews s)) <? 50))%Z = true
  <-> few_reviews s.
Proof.
  unfold few_reviews. rewrite orb_true_iff, !Z.ltb_lt. reflexivity.
Qed.

(** C5.  The recommendations are the output of three rules, in this order:
    the ranking rule (status poor, priority high) fires exactly when
    [googleRanking < 70]; the social rule (status warning, priority medium,
    a message that lists the absent platforms joined by a comma and a space)
    fires exactly when one of the four platforms is absent; the review rule
    (status warning, priority high) fires exactly when google has fewer than
    100 reviews or yelp fewer than 50.  Each rule adds one recommendation or
    none, so there are at most three. *)
Theorem generateRecommendations_rules (s : SeoScore) :
  exists r1 r2 r3 : list Recommendation,
    generateRecommendations s = (r1 ++ r2 ++ r3)%list /\
    (googleRanking (details s) < 70 -> r1 = [ranking_recommendation s]) /\
    (~ googleRanking (details s) < 70 -> r1 = []) /\
    (some_platform_missing s -> r2 = [social_recommendation s]) /\
    (~ some_platform_missing s -> r2 = []) /\
    (few_reviews s -> r3 = [reviews_recommendation s]) /\
    (~ few_reviews s -> r3 = []) /\
    (List.length (generateRecommendations s) <= 3)%nat.
Proof.
  rewrite generateRecommendations_pushes.
  do 3 eexists. split; [reflexivity |].
  destruct (rule_fires _ _ (ranking_recommendation s)
              (ltb_lt (googleRanking (details s)) 70)) as [R1 R1'].
  destruct (rule_fires _ _ (social_recommendation s)
              (some_platform_missing_test s)) as [R2 R2'].
  destruct (rule_fires _ _ (reviews_recommendation s)
              (few_reviews_test s)) as [R3 R3'].
  repeat (split; [assumption |]).
  rewrite !length_app.
  destruct (ltb (googleRanking (details s)) 70);
    destruct (0 <? size (missing_platforms s))%Z;
    destruct ((Api.count (Api.google (reviews s)) <? 100)
              || (Api.count (Api.yelp (reviews s)) <? 50))%Z;
    cbn [List.length]; lia.
Qed.

(** The order is that of the rules, not that of the priorities: on the
    sample the recommendation of medium priority stands between the two of
    high priority. *)
Example generateRecommendations_sample :
  map (fun r => (category r, priority r))
    (generateRecommendations
       (score_of sample_name sample_address sample_api))
  = [ ("Search Engine Ranking", high); ("Social Media Presence", medium);
      ("Online Reviews", high) ].
Proof. reflexivity. Qed.

Example generateRecommendations_sample_messages :
  map message
    (generateRecommendations
       (score_of sample_name sample_address sample_api))
  = [ "Current Google Ranking: Position 42";
      "Missing presence on: instagram, linkedin";
      "Current reviews: Google (50), Yelp (10)" ].
Proof. reflexivity. Qed.

(** A score that breaks no rule gets no recommendation. *)
Example generateRecommendations_quiet :
  generateRecommendations (score_of sample_name sample_address quiet_api)
  = [].
Proof. reflexivity. Qed.

(** C10.  Every recommendation has priority high or medium; none has
    priority low. *)
Theorem generateRecommendations_priority (s : SeoScore) :
  Forall (fun r => priority r = high \/ priority r = medium)
    (generateRecommendations s) /\
  ~ In low (map priority (generateRecommendations s)).
Proof.
  rewrite generateRecommendations_pushes.
  destruct (ltb (googleRanking (details s)) 70);
    destruct (0 <? size (missing_platforms s))%Z;
    destruct ((Api.count (Api.google (reviews s)) <? 100)
              || (Api.count (Api.yelp (reviews s)) <? 50))%Z;
    cbn [app map priority ranking_recommendation social_recommendation
         reviews_recommendation In];
    (split;
     [repeat (apply Forall_cons || apply Forall_nil); cbn [priority]; auto
     | intuition discriminate]).
Qed.

(** ** The failure of the fetch *)

(** C9.  When the fetch is rejected, with whatever reason,
    [calculateSEOMetrics] throws the one error "Failed to fetch SEO data"
    and returns no score; [calculateSeoScore] then sets the error to
    "Failed to calculate SEO score. Please try again." and leaves the score
    and the recommendations of the state as they were. *)
Theorem calculateSeoScore_fetch_failure (st : HomeState) (reason : string) :
  calculateSEOMetrics st (Rejected reason) = Throw "Failed to fetch SEO data"
  /\
  (forall s : SeoScore, calculateSEOMetrics st (Rejected reason) <> Return s)
  /\
  error (calculateSeoScore st (Rejected reason))
  = Some "Failed to calculate SEO score. Please try again." /\
  seoScore (calculateSeoScore st (Rejected reason)) = seoScore st /\
  recommendations (calculateSeoScore st (Rejected reason))
  = recommendations st /\
  isCalculating (calculateSeoScore st (Rejected reason)) = false.
Proof.
  repeat split; try reflexivity.
  intros s H. discriminate H.
Qed.

(** A fetch that succeeds stores the new score with its recommendations and
    clears the error. *)
Lemma calculateSeoScore_success (st : HomeState) (apiData : Api.Data) :
  let s := score_of (_businessName st) (_businessAddress st) apiData in
  seoScore (calculateSeoScore st (Resolved apiData)) = Some s /\
  recommendations (calculateSeoScore st (Resolved apiData))
  = generateRecommendations s /\
  error (calculateSeoScore st (Resolved apiData)) = None /\
  isCalculating (calculateSeoScore st (Resolved apiData)) = false.
Proof.
  repeat split; reflexivity.
Qed.

(** After a success, a failure keeps the stored score and shows the
    message. *)
Example calculateSeoScore_failure_after_success :
  let st1 := calculateSeoScore sample_state (Resolved sample_api) in
  let st2 := calculateSeoScore st1 (Rejected "timeout") in
  seoScore st2
  = Some (score_of sample_name sample_address sample_api) /\
  recommendations st2 = recommendations st1 /\
  error st2 = Some "Failed to calculate SEO score. Please try again.".
Proof. repeat split; reflexivity. Qed.

(** * Further properties of the page *)

(** ** The score of the name, in integers *)

Lemma nameLength_closed_form (name address : string) (apiData : Api.Data) :
  nameLength (details (score_of name address apiData))
  == inject_Z (name_score (length name)).
Proof.
  unfold name_score.
  pose proof (length_nonneg name) as Hnn.
  destruct (Z.leb_spec (length name) 0) as [H0 | Hpos].
  - assert (E : length name = 0%Z) by lia.
    apply length_zero in E. subst name. rewrite nameLength_eq. reflexivity.
  - destruct (Z.ltb_spec (length name) 15) as [Hlt | Hge].
    + apply nameLength_short. lia.
    + destruct (Z.leb_spec (length name) 30) as [Hle | Hgt].
      * destruct (nameLength_cases name address apiData Hpos) as (H & _).
        rewrite H by lia. reflexivity.
      * apply nameLength_long. lia.
Qed.

Lemma name_score_long_bounds (L : Z) :
  (30 < L)%Z ->
  (0 <= (2400 + L) / (2 * L) <= 39)%Z /\
  (31 <= (2400 + L) / (2 * L) <-> L <= 39)%Z /\
  ((2400 + L) / (2 * L) = 0 <-> 2400 < L)%Z.
Proof.
  intro H. split; [| split].
  - split.
    + apply Z.div_pos; lia.
    + assert ((2400 + L) / (2 * L) < 40)%Z; [| lia].
      apply Z.div_lt_upper_bound; lia.
  - split; intro H'.
    + destruct (Z.le_gt_cases L 39) as [Hle | Hgt]; [exact Hle |].
      assert ((2400 + L) / (2 * L) < 31)%Z; [| lia].
      apply Z.div_lt_upper_bound; lia.
    + apply Z.div_le_lower_bound; lia.
  - rewrite Z.div_small_iff by lia. lia.
Qed.

Lemma inject_Z_le (a b : Z) : (a <= b)%Z <-> inject_Z a <= inject_Z b.
Proof. rewrite Zle_Qle. reflexivity. Qed.

Lemma inject_Z_lt (a b : Z) : (a < b)%Z <-> inject_Z a < inject_Z b.
Proof. rewrite Zlt_Qlt. reflexivity. Qed.

Lemma nameLength_at_most_39 (name address : string) (apiData : Api.Data) :
  nameLength (details (score_of name address apiData)) <= 39.
Proof.
  rewrite nameLength_closed_form.
  change 39 with (inject_Z 39). rewrite <- inject_Z_le.
  unfold name_score.
  destruct (Z.leb_spec (length name) 0); [lia |].
  destruct (Z.ltb_spec (length name) 15); [lia |].
  destruct (Z.leb_spec (length name) 30); [lia |].
  apply (name_score_long_bounds (length name)). lia.
Qed.

(** X1.  The length of a name never scores more than 39, and it scores
    more than 30, the score of the lengths 15 to 30, exactly for the
    lengths 31 to 39. *)
Theorem nameLength_overshoot (name address : string) (apiData : Api.Data) :
  nameLength (details (score_of name address apiData)) <= 39 /\
  (30 < nameLength (details (score_of name address apiData))
   <-> (31 <= length name <= 39)%Z).
Proof.
  rewrite nameLength_closed_form.
  change 39 with (inject_Z 39). change 30 with (inject_Z 30).
  rewrite <- inject_Z_le, <- inject_Z_lt.
  unfold name_score.
  destruct (Z.leb_spec (length name) 0); [lia |].
  destruct (Z.ltb_spec (length name) 15); [lia |].
  destruct (Z.leb_spec (length name) 30); [lia |].
  destruct (name_score_long_bounds (length name)) as ([_ Hhi] & Hiff & _);
    [lia |].
  split; [exact Hhi |]. split; intro Hx.
  - split; [lia |]. apply Hiff. lia.
  - assert (31 <= (2400 + length name) / (2 * length name))%Z; [| lia].
    apply Hiff. lia.
Qed.

(** X2.  The length of a name scores nothing exactly when the name is empty
    or longer than 2400 code units. *)
Theorem nameLength_zero (name address : string) (apiData : Api.Data) :
  nameLength (details (score_of name address apiData)) == 0
  <-> name = "" \/ (2400 < length name)%Z.
Proof.
  rewrite nameLength_closed_form.
  change 0 with (inject_Z 0). rewrite inject_Z_injective.
  rewrite <- length_zero.
  pose proof (length_nonneg name) as Hnn.
  unfold name_score.
  destruct (Z.leb_spec (length name) 0); [lia |].
  destruct (Z.ltb_spec (length name) 15); [lia |].
  destruct (Z.leb_spec (length name) 30); [lia |].
  destruct (name_score_long_bounds (length name)) as (_ & _ & Hz); [lia |].
  rewrite Hz. lia.
Qed.

Lemma name_score_rising (a b : Z) :
  (a <= b <= 30)%Z -> (name_score a <= name_score b)%Z.
Proof.
  intro H. unfold name_score.
  destruct (Z.leb_spec a 0); destruct (Z.leb_spec b 0);
    destruct (Z.ltb_spec a 15); destruct (Z.ltb_spec b 15);
    destruct (Z.leb_spec a 30); destruct (Z.leb_spec b 30); lia.
Qed.

Lemma name_score_falling (a b : Z) :
  (31 <= a <= b)%Z -> (name_score b <= name_score a)%Z.
Proof.
  intro H. unfold name_score.
  destruct (Z.leb_spec a 0); [lia |]. destruct (Z.leb_spec b 0); [lia |].
  destruct (Z.ltb_spec a 15); [lia |]. destruct (Z.ltb_spec b 15); [lia |].
  destruct (Z.leb_spec a 30); [lia |]. destruct (Z.leb_spec b 30); [lia |].
  apply Z.div_le_lower_bound; [lia |].
  assert (Hb : (2 * b * ((2400 + b) / (2 * b)) <= 2400 + b)%Z).
  { apply Z.mul_div_le. lia. }
  assert (Hq : (0 <= (2400 + b) / (2 * b))%Z) by (apply Z.div_pos; lia).
  assert (Hq1 : ((2400 + b) / (2 * b) = 0 \/ 1 <= (2400 + b) / (2 * b))%Z)
    by lia.
  destruct Hq1 as [E | Hq1]; [rewrite E; lia |].
  nia.
Qed.

(** X3.  Up to 30 code units a longer name never scores less for its
    length; from 31 code units on a longer name never scores more. *)
Theorem nameLength_monotone
    (name1 name2 address1 address2 : string) (api1 api2 : Api.Data) :
  (length name1 <= length name2)%Z ->
  ((length name2 <= 30)%Z ->
   nameLength (details (score_of name1 address1 api1))
   <= nameLength (details (score_of name2 address2 api2))) /\
  ((31 <= length name1)%Z ->
   nameLength (details (score_of name2 address2 api2))
   <= nameLength (details (score_of name1 address1 api1))).
Proof.
  intro Hle. rewrite !nameLength_closed_form.
  split; intro H; rewrite <- inject_Z_le.
  - apply name_score_rising. lia.
  - apply name_score_falling. lia.
Qed.

Lemma nameLength_monotone_witness :
  (length double_spaced_name <= length sample_name)%Z /\
  (length sample_name <= 30)%Z /\
  nameLength (details (score_of double_spaced_name sample_address sample_api))
  <= nameLength (details (score_of sample_name sample_address sample_api)).
Proof.
  split; [vm_compute; discriminate |].
  split; [vm_compute; discriminate |].
  apply (nameLength_monotone double_spaced_name sample_name sample_address
           sample_address sample_api sample_api);
    vm_compute; discriminate.
Defined.

(** ** The exact operations *)

(** An integer below [2 ^ 53] in size is a double. *)
Lemma round_Z (z : Z) :
  (- 9007199254740992 < z < 9007199254740992)%Z ->
  Double.round (inject_Z z) == inject_Z z.
Proof.
  intros [Hlo Hhi].
  destruct (round_between (inject_Z z) z z Hlo Hhi) as [H1 H2].
  - split; apply Qle_refl.
  - now apply Qle_antisym.
Qed.

(** The difference [100 - googlePosition] and the share
    [(existingPlatforms / 4) * 100], which [score_api] writes without
    rounding, are exact in doubles. *)
Lemma score_api_exact (p k : Z) :
  (0 <= p < 9007199254740992)%Z -> (0 <= k <= 4)%Z ->
  Double.round (100 - inject_Z p) == 100 - inject_Z p /\
  Double.mul (Double.div (inject_Z k) 4) 100 == inject_Z k / 4 * 100.
Proof.
  intros Hp Hk. split.
  - change 100 with (inject_Z 100). unfold Qminus.
    rewrite <- inject_Z_opp, <- inject_Z_plus.
    apply round_Z. lia.
  - assert (Hcases : k = 0%Z \/ k = 1%Z \/ k = 2%Z \/ k = 3%Z \/ k = 4%Z)
      by lia.
    destruct Hcases as [-> | [-> | [-> | [-> | ->]]]];
      vm_compute; reflexivity.
Qed.

Lemma name_score_in_doubles_short :
  forallb (fun L => Z.eqb (name_score_in_doubles L) (name_score L))
    scoring_lengths = true.
Proof. vm_compute. reflexivity. Qed.

Lemma name_score_in_doubles_long (L : Z) :
  (2400 < L)%Z -> name_score_in_doubles L = 0%Z.
Proof.
  intro HL. unfold name_score_in_doubles.
  replace ((15 <=? L) && (L <=? 30))%Z with false
    by (symmetry; apply andb_false_iff; right; apply Z.leb_gt; lia).
  replace (L <? 15)%Z with false by (symmetry; apply Z.ltb_ge; lia).
  assert (Hq : 2401 <= inject_Z L).
  { change 2401 with (inject_Z 2401). rewrite <- Zle_Qle. lia. }
  set (x := 40 / inject_Z L).
  assert (Hx : 0 <= x <= 40 # 2401).
  { unfold x. split.
    - apply Qle_shift_div_l; lra.
    - apply Qle_shift_div_r; lra. }
  destruct Hx as [Hx0 Hx1].
  assert (Hu : - (1 # 17592186044416) <= Double.div 40 (inject_Z L) - x
               <= 1 # 17592186044416).
  { unfold Double.div. fold x. apply round_error_1024.
    apply Qabs_Qlt_condition. split; lra. }
  assert (Hu0 : 0 <= Double.div 40 (inject_Z L)).
  { apply div_nonneg; lra. }
  set (u := Double.div 40 (inject_Z L)) in *.
  assert (Hv : - (1 # 17592186044416) <= Double.mul u 30 - u * 30
               <= 1 # 17592186044416).
  { unfold Double.mul. apply round_error_1024.
    apply Qabs_Qlt_condition. split; lra. }
  assert (Hv0 : 0 <= Double.mul u 30) by (apply mul_nonneg; lra).
  set (v := Double.mul u 30) in *.
  assert (Hlo : (Math_round 0 <= Math_round v)%Z)
    by (apply Math_round_le; exact Hv0).
  assert (Hhi : (Math_round v <= Math_round (4999 # 10000))%Z)
    by (apply Math_round_le; lra).
  change (Math_round 0) with 0%Z in Hlo.
  change (Math_round (4999 # 10000)) with 0%Z in Hhi. lia.
Qed.

(** In doubles the conditional of the name gives what it gives in exact
    numbers, for every length. *)
Lemma name_score_in_doubles_exact (L : Z) :
  (0 < L)%Z -> name_score_in_doubles L = name_score L.
Proof.
  intro HL.
  destruct (Z.le_gt_cases L 2400) as [Hle | Hgt].
  - pose proof name_score_in_doubles_short as Hall.
    rewrite forallb_forall in Hall.
    apply Z.eqb_eq. apply Hall. unfold scoring_lengths.
    apply in_map_iff. exists (Z.to_nat L). split; [lia |].
    apply in_seq. lia.
  - rewrite (name_score_in_doubles_long L Hgt).
    unfold name_score.
    destruct (Z.leb_spec L 0); [lia |].
    destruct (Z.ltb_spec L 15); [lia |].
    destruct (Z.leb_spec L 30); [lia |].
    symmetry. apply (name_score_long_bounds L); lia.
Qed.

(** X18.  The score of the length of a name is what the conditional of the
    page gives when its quotients and products are rounded to doubles, for
    every name that is not empty: twice the length below 15, 30 up to 30,
    and beyond that [(2400 + L) / (2 * L)] cut to an integer. *)
Theorem nameLength_in_doubles (name address : string) (apiData : Api.Data) :
  name <> "" ->
  nameLength (details (score_of name address apiData))
  == inject_Z (name_score_in_doubles (length name)) /\
  name_score_in_doubles (length name) = name_score (length name).
Proof.
  intro Hne. apply length_pos in Hne.
  rewrite (name_score_in_doubles_exact _ Hne).
  split; [apply nameLength_closed_form | reflexivity].
Qed.

Lemma nameLength_in_doubles_witness :
  long_name <> "" /\
  nameLength (details (score_of long_name sample_address sample_api))
  == inject_Z (name_score_in_doubles (length long_name)).
Proof.
  split; [discriminate |].
  apply (nameLength_in_doubles long_name sample_address sample_api).
  discriminate.
Defined.

(** ** The ceiling of the total *)

Lemma keywordOptimization_at_most_30
    (name address : string) (apiData : Api.Data) :
  keywordOptimization (details (score_of name address apiData)) <= 30.
Proof.
  rewrite keywordOptimization_cases.
  destruct (0 <? length name)%Z; [apply Q.le_min_r | lra].
Qed.

Lemma addressCompleteness_at_most_40
    (name address : string) (apiData : Api.Data) :
  addressCompleteness (details (score_of name address apiData)) <= 40.
Proof.
  rewrite addressCompleteness_eq.
  destruct (0 <? length address)%Z; [apply Q.le_min_r | lra].
Qed.

Lemma total_ceiling (name address : string) (apiData : Api.Data) :
  (0 <= Api.googlePosition (Api.searchRanking apiData))%Z ->
  (total (score_of name address apiData) <= 73)%Z.
Proof.
  intro Hpos.
  rewrite score_of_total.
  rewrite <- (Math_round_Z 73). apply Math_round_le.
  pose proof (nameLength_at_most_39 name address apiData) as Hn.
  pose proof (keywordOptimization_at_most_30 name address apiData) as Hk.
  pose proof (addressCompleteness_at_most_40 name address apiData) as Ha.
  destruct (googleRanking_in_range name address apiData Hpos) as [_ Hg].
  destruct (socialMediaPresence_in_range name address apiData) as [_ Hs].
  assert (Hl : localSEO (details (score_of name address apiData)) <= 100).
  { rewrite localSEO_eq. apply Q.le_min_l. }
  assert (Ho : onlineReviews (details (score_of name address apiData))
               <= 100).
  { rewrite onlineReviews_eq. apply Q.le_min_l. }
  pose proof (double_sum_le (details (score_of name address apiData))
                39 40 30 100 100 100 100 ltac:(lia) Hn Ha Hk Hg Hs Hl Ho)
    as Hsum.
  cbn [Z.add Pos.add Pos.succ Pos.add_carry] in Hsum.
  change (inject_Z 509) with 509 in Hsum.
  unfold Double.div. apply round_le_bound; [lia |].
  change (inject_Z 73) with 73.
  unfold Qdiv. change (/ 7) with (1 # 7). lra.
Qed.

(** X4.  With a position that is not negative the total never exceeds 73,
    whatever the name, the address and the other signals are; and 73 is
    reached, by a name of 31 code units with the best signals. *)
Theorem total_at_most_73 (name address : string) (apiData : Api.Data) :
  (0 <= Api.googlePosition (Api.searchRanking apiData))%Z ->
  (total (score_of name address apiData) <= 73)%Z /\
  total (score_of long_name sample_address best_api) = 73%Z.
Proof.
  intro Hpos. split; [now apply total_ceiling | reflexivity].
Qed.

Lemma total_at_most_73_witness :
  (0 <= Api.googlePosition (Api.searchRanking best_api))%Z /\
  (total (score_of long_name sample_address best_api) <= 73)%Z.
Proof.
  split; [vm_compute; discriminate |].
  apply (total_at_most_73 long_name sample_address best_api).
  vm_compute; discriminate.
Defined.

(** ** The platforms *)

(** X5.  The score of the social media is 25 for every tracked platform
    that exists: 100 less 25 for every platform that the recommendation
    lists as missing. *)
Theorem socialMediaPresence_by_missing
    (name address : string) (apiData : Api.Data) :
  socialMediaPresence (details (score_of name address apiData))
  == inject_Z
       (100 - 25 * size (missing_platforms (score_of name address apiData))).
Proof.
  rewrite socialMediaPresence_eq.
  unfold missing_platforms, socialPlatforms.
  cbn [socialMedia score_of filter Api.get String.eqb Ascii.eqb Bool.eqb].
  destruct (Api.exists_ (Api.facebook (Api.socialMedia apiData)));
    destruct (Api.exists_ (Api.instagram (Api.socialMedia apiData)));
    destruct (Api.exists_ (Api.twitter (Api.socialMedia apiData)));
    destruct (Api.exists_ (Api.linkedin (Api.socialMedia apiData)));
    reflexivity.
Qed.

(** ** The recommendations of a computed score *)

Lemma categories_pushes (s : SeoScore) :
  map category (generateRecommendations s) =
  ((if ltb (googleRanking (details s)) 70
    then ["Search Engine Ranking"] else [])
   ++ (if (0 <? size (missing_platforms s))%Z
       then ["Social Media Presence"] else [])
   ++ (if ((Api.count (Api.google (reviews s)) <? 100)
           || (Api.count (Api.yelp (reviews s)) <? 50))%Z
       then ["Online Reviews"] else []))%list.
Proof.
  rewrite generateRecommendations_pushes.
  destruct (ltb (googleRanking (details s)) 70);
    destruct (0 <? size (missing_platforms s))%Z;
    destruct ((Api.count (Api.google (reviews s)) <? 100)
              || (Api.count (Api.yelp (reviews s)) <? 50))%Z;
    reflexivity.
Qed.

Lemma ranking_test_position (name address : string) (apiData : Api.Data) :
  ltb (googleRanking (details (score_of name address apiData))) 70 = true
  <-> (30 < Api.googlePosition (Api.searchRanking apiData))%Z.
Proof.
  rewrite ltb_lt, googleRanking_eq. unfold Math_max.
  rewrite Q.max_lub_lt_iff, inject_Z_lt.
  change (inject_Z 30) with 30.
  split.
  - intros [_ H]. lra.
  - intro H. split; lra.
Qed.

Lemma social_test_score (name address : string) (apiData : Api.Data) :
  (0 <? size (missing_platforms (score_of name address apiData)))%Z = true
  <-> socialMediaPresence (details (score_of name address apiData)) < 100.
Proof.
  rewrite socialMediaPresence_eq.
  unfold missing_platforms, socialPlatforms.
  cbn [socialMedia score_of filter Api.get String.eqb Ascii.eqb Bool.eqb].
  destruct (Api.exists_ (Api.facebook (Api.socialMedia apiData)));
    destruct (Api.exists_ (Api.instagram (Api.socialMedia apiData)));
    destruct (Api.exists_ (Api.twitter (Api.socialMedia apiData)));
    destruct (Api.exists_ (Api.linkedin (Api.socialMedia apiData)));
    vm_compute; split; intro H; try reflexivity; discriminate H.
Qed.

(** X6.  For a computed score the ranking is recommended exactly when the
    position is beyond 30, the social media exactly when their score is
    below 100, and the reviews exactly when google counts fewer than 100 or
    yelp fewer than 50. *)
Theorem recommendations_of_score
    (name address : string) (apiData : Api.Data) :
  let s := score_of name address apiData in
  let categories := map category (generateRecommendations s) in
  (In "Search Engine Ranking" categories
   <-> (30 < Api.googlePosition (Api.searchRanking apiData))%Z) /\
  (In "Social Media Presence" categories
   <-> socialMediaPresence (details s) < 100) /\
  (In "Online Reviews" categories
   <-> (Api.count (Api.google (Api.reviews apiData)) < 100)%Z \/
       (Api.count (Api.yelp (Api.reviews apiData)) < 50)%Z).
Proof.
  intros s categories. subst categories. rewrite categories_pushes.
  pose proof (ranking_test_position name address apiData) as H1.
  pose proof (social_test_score name address apiData) as H2.
  pose proof (few_reviews_test s) as H3. unfold few_reviews in H3.
  fold s in H1, H2.
  change (reviews s) with (Api.reviews apiData) in *.
  destruct (ltb (googleRanking (details s)) 70);
    destruct (0 <? size (missing_platforms s))%Z;
    destruct ((Api.count (Api.google (Api.reviews apiData)) <? 100)
              || (Api.count (Api.yelp (Api.reviews apiData)) <? 50))%Z;
    cbn [app In];
    (split; [| split]); split; intro H;
    try (apply H1; reflexivity); try (apply H2; reflexivity);
    try (apply H3; reflexivity); auto;
    try (apply H1 in H; discriminate H);
    try (apply H2 in H; discriminate H);
    try (apply H3 in H; discriminate H);
    try (repeat destruct H as [H | H]; try discriminate H; contradiction).
Qed.

(** X7.  No two recommendations of one score have the same category. *)
Theorem recommendations_categories_differ (s : SeoScore) :
  NoDup (map category (generateRecommendations s)).
Proof.
  rewrite categories_pushes.
  destruct (ltb (googleRanking (details s)) 70);
    destruct (0 <? size (missing_platforms s))%Z;
    destruct ((Api.count (Api.google (reviews s)) <? 100)
              || (Api.count (Api.yelp (reviews s)) <? 50))%Z;
    cbn [app];
    repeat (apply NoDup_cons; [cbn [In]; intuition discriminate |]);
    apply NoDup_nil.
Qed.

(** ** The simulated data *)

(** A double below 1 is at most the last double before 1. *)
Lemma double_below_one (r : Q) :
  Double.is_double r -> 0 <= r < 1 -> r <= 1 - 2 ^ (- 53).
Proof.
  intros Hd [H0 H1].
  destruct (Qlt_le_dec r (1 # 2)) as [Hsmall | Hbig].
  - apply Qle_trans with (1 # 2); [now apply Qlt_le_weak |].
    vm_compute. discriminate.
  - assert (Hne : ~ r == 0) by (intro E; lra).
    assert (Habs : Qabs r == r) by (apply Qabs_pos; exact H0).
    assert (Hb : Double.binade r = (-1)%Z).
    { assert (-1 <= Double.binade r)%Z.
      { apply binade_ge; [exact Hne |]. rewrite Habs. exact Hbig. }
      assert (Double.binade r < 0)%Z.
      { apply binade_lt; [exact Hne |]. rewrite Habs. exact H1. }
      lia. }
    unfold Double.is_double in Hd. rewrite (round_unfold r Hne) in Hd.
    unfold Double.places in Hd. rewrite Hb in Hd.
    change (52 - Z.max (-1) (-1022))%Z with 53%Z in Hd.
    set (N := Double.nearest_even (r * 2 ^ 53)) in *.
    assert (HN : (N < 2 ^ 53)%Z).
    { rewrite Zlt_Qlt. rewrite <- pow2_Z by lia.
      apply (Qmult_lt_r _ _ (2 ^ (- 53))); [apply pow2_pos |].
      rewrite Hd, pow2_cancel. exact H1. }
    rewrite <- Hd.
    apply Qle_trans with (inject_Z (2 ^ 53 - 1) * 2 ^ (- 53)).
    + apply Qmult_le_compat_r; [| apply Qlt_le_weak, pow2_pos].
      rewrite <- Zle_Qle. lia.
    + vm_compute. discriminate.
Qed.

(** A draw scaled by an integer [n] that is no power of 2, rounded and cut
    to an integer, is one of [0 .. n - 1]. *)
Lemma floor_draw (r : Q) (n e : Z) :
  0 <= r <= 1 - 2 ^ (- 53) ->
  (0 <= e <= 52)%Z -> (2 ^ e < n < 2 ^ (e + 1))%Z ->
  (0 <= Math_floor (Double.mul r (inject_Z n)) <= n - 1)%Z.
Proof.
  intros [Hr0 Hr1] He [Hn0 Hn1]. unfold Math_floor, Double.mul.
  assert (Hpe : (0 < 2 ^ e)%Z) by (apply Z.pow_pos_nonneg; lia).
  assert (Hnq : 0 < inject_Z n).
  { change 0 with (inject_Z 0). rewrite <- Zlt_Qlt. lia. }
  set (x := r * inject_Z n).
  assert (Hx0 : 0 <= x) by (apply Qmult_le_0_compat; [exact Hr0 | lra]).
  split.
  - change 0%Z with (Qfloor 0). apply Qfloor_resp_le.
    now apply round_nonneg.
  - assert (Hlt : Double.round x < inject_Z n).
    { destruct (Qeq_dec x 0) as [E0 | Hne].
      - rewrite (round_0 x E0). exact Hnq.
      - assert (Habs : Qabs x == x) by (apply Qabs_pos; exact Hx0).
        assert (Hxn : x <= inject_Z n - inject_Z n * 2 ^ (- 53)).
        { unfold x.
          setoid_replace (inject_Z n - inject_Z n * 2 ^ (- 53))
            with ((1 - 2 ^ (- 53)) * inject_Z n) by ring.
          apply Qmult_le_compat_r; [exact Hr1 | lra]. }
        pose proof (pow2_pos (- 53)) as Hp53.
        assert (Hxlt : x < inject_Z n).
        { apply Qle_lt_trans with (inject_Z n - inject_Z n * 2 ^ (- 53));
            [exact Hxn |].
          assert (0 < inject_Z n * 2 ^ (- 53))
            by (apply Qmult_lt_0_compat; assumption).
          lra. }
        assert (Hb : (Double.binade x < e + 1)%Z).
        { apply binade_lt; [exact Hne |]. rewrite Habs.
          apply Qlt_trans with (inject_Z n); [exact Hxlt |].
          rewrite pow2_Z by lia. rewrite <- Zlt_Qlt. exact Hn1. }
        rewrite (round_unfold x Hne).
        set (s := Double.places x).
        assert (Hs : (52 - e <= s)%Z) by (unfold s, Double.places; lia).
        pose proof (pow2_pos s) as Hps. pose proof (pow2_pos (- s)) as Hms.
        pose proof (pow2_cancel s) as Hc.
        assert (Hgap : 1 < inject_Z n * 2 ^ (s - 52)).
        { apply Qlt_le_trans with (inject_Z n * 2 ^ (- e)).
          - setoid_replace 1 with (2 ^ e * 2 ^ (- e))
              by (symmetry; apply pow2_cancel).
            apply Qmult_lt_compat_r; [apply pow2_pos |].
            rewrite pow2_Z by lia. rewrite <- Zlt_Qlt. exact Hn0.
          - apply Qmult_le_l; [exact Hnq |]. apply pow2_le. lia. }
        assert (Hne_le : (Double.nearest_even (x * 2 ^ s) <= n * 2 ^ s - 1)%Z).
        { apply nearest_even_below_half.
          unfold Z.sub. rewrite inject_Z_plus, inject_Z_mult, inject_Z_opp.
          rewrite <- pow2_Z by lia. change (inject_Z 1) with 1.
          apply Qle_lt_trans
            with ((inject_Z n - inject_Z n * 2 ^ (- 53)) * 2 ^ s).
          - apply Qmult_le_compat_r; [exact Hxn | now apply Qlt_le_weak].
          - assert (Hhalf : inject_Z n * 2 ^ (- 53) * 2 ^ s
                            == (1 # 2) * (inject_Z n * 2 ^ (s - 52))).
            { replace (s - 52)%Z with (1 + (- 53 + s))%Z by lia.
              rewrite (pow2_plus 1), (pow2_plus (- 53)).
              change (2 ^ 1) with 2. field. }
            setoid_replace ((inject_Z n - inject_Z n * 2 ^ (- 53)) * 2 ^ s)
              with (inject_Z n * 2 ^ s - inject_Z n * 2 ^ (- 53) * 2 ^ s)
              by ring.
            rewrite Hhalf. lra. }
        apply Qle_lt_trans with (inject_Z (n * 2 ^ s - 1) * 2 ^ (- s)).
        + apply Qmult_le_compat_r; [| now apply Qlt_le_weak].
          rewrite <- Zle_Qle. exact Hne_le.
        + unfold Z.sub. rewrite inject_Z_plus, inject_Z_mult, inject_Z_opp.
          rewrite <- pow2_Z by lia. change (inject_Z 1) with 1.
          setoid_replace ((inject_Z n * 2 ^ s + - (1)) * 2 ^ (- s))
            with (inject_Z n * (2 ^ s * 2 ^ (- s)) - 2 ^ (- s)) by ring.
          rewrite Hc. lra. }
    assert (Hfl : inject_Z (Qfloor (Double.round x)) < inject_Z n).
    { eapply Qle_lt_trans; [apply Qfloor_le | exact Hlt]. }
    rewrite <- Zlt_Qlt in Hfl. lia.
Qed.

(** A rating from 3 to 5 gives a half of the review score from 30 to 50:
    the fifth of 3 is rounded down to the double below 0.6, and 50 times
    that double is rounded up to 30. *)
Lemma review_half (a : Q) :
  3 <= a <= 5 -> 30 <= Double.mul (Double.div a 5) 50 <= 50.
Proof.
  intros [Ha3 Ha5]. unfold Double.mul, Double.div.
  set (x := a / 5).
  assert (Hx : 3 # 5 <= x <= 1).
  { unfold x, Qdiv. change (/ 5) with (1 # 5). split; lra. }
  destruct Hx as [Hx0 Hx1].
  set (d0 := inject_Z 5404319552844595 * 2 ^ (- 53)).
  assert (Hd0 : d0 < 3 # 5) by (vm_compute; reflexivity).
  assert (Hd0' : 0 < d0) by (vm_compute; reflexivity).
  assert (Hu : d0 <= Double.round x <= 1).
  { split.
    - destruct (Qlt_le_dec x 1) as [Hlt | Hge].
      + apply (round_grid x 5404319552844595 53); [lia | |].
        * rewrite Qabs_pos by lra. exact Hlt.
        * apply Qlt_le_weak, Qlt_le_trans with (3 # 5); assumption.
      + apply Qle_trans with 1; [vm_compute; discriminate |].
        apply (round_ge_Z x 1); [| exact Hge].
        rewrite Qabs_pos by lra.
        apply Qle_lt_trans with 1; [exact Hx1 | reflexivity].
    - apply (round_le_Z x 1); [| exact Hx1].
      rewrite Qabs_pos by lra.
      apply Qle_lt_trans with 1; [exact Hx1 | reflexivity]. }
  destruct Hu as [Hu0 Hu1].
  set (u := Double.round x) in *.
  set (t := u * 50).
  assert (Ht0 : d0 * 50 <= t) by (unfold t; lra).
  assert (Ht1 : t <= 50) by (unfold t; lra).
  assert (Hd50 : 16 <= d0 * 50) by (vm_compute; discriminate).
  assert (Habs : Qabs t == t) by (apply Qabs_pos; lra).
  assert (Hsmall : Qabs t < 2 ^ 53).
  { rewrite Habs. apply Qle_lt_trans with 50; [exact Ht1 | reflexivity]. }
  split.
  - destruct (Qlt_le_dec t 30) as [Hlt | Hge].
    + assert (Hne : ~ t == 0) by (intro E; lra).
      assert (Hb : Double.binade t = 4%Z).
      { assert (4 <= Double.binade t)%Z.
        { apply binade_ge; [exact Hne |]. rewrite Habs.
          change (2 ^ 4) with 16. lra. }
        assert (Double.binade t < 5)%Z.
        { apply binade_lt; [exact Hne |]. rewrite Habs.
          change (2 ^ 5) with 32. lra. }
        lia. }
      rewrite (round_unfold t Hne). unfold Double.places. rewrite Hb.
      change (52 - Z.max 4 (-1022))%Z with 48%Z.
      assert (Hn : (30 * 2 ^ 48 <= Double.nearest_even (t * 2 ^ 48))%Z).
      { apply nearest_even_above_half.
        apply Qlt_le_trans with (d0 * 50 * 2 ^ 48);
          [vm_compute; reflexivity |].
        apply Qmult_le_compat_r; [exact Ht0 | apply Qlt_le_weak, pow2_pos]. }
      apply Qle_trans with (inject_Z (30 * 2 ^ 48) * 2 ^ (- 48));
        [vm_compute; discriminate |].
      apply Qmult_le_compat_r; [| apply Qlt_le_weak, pow2_pos].
      rewrite <- Zle_Qle. exact Hn.
    + apply (round_ge_Z t 30); assumption.
  - apply (round_le_Z t 50); assumption.
Qed.

Lemma unit_draw_bounds (random : Random) (n : nat) :
  unit_draws random -> 0 <= random n <= 1 - 2 ^ (- 53).
Proof.
  intro Hr. destruct (Hr n) as [Hd [H0 H1]].
  split; [exact H0 | now apply double_below_one].
Qed.

Lemma shift_ranks_bounds (random : Random) (n : nat) (arr : list Z) :
  unit_draws random ->
  Forall2 (fun base rank => (base <= rank <= base + 4)%Z)
    arr (shift_ranks random n arr).
Proof.
  intro Hr. revert n.
  induction arr as [| x rest IH]; intro n; cbn [shift_ranks].
  - constructor.
  - constructor; [| apply IH].
    pose proof (floor_draw (random n) 5 2 (unit_draw_bounds random n Hr)
                  ltac:(lia) ltac:(lia)) as H.
    change (inject_Z 5) with 5 in H. lia.
Qed.

(** The rating [3 + Math.random() * 2] lies between 3 and 5. *)
Lemma simulated_rating (r : Q) :
  0 <= r <= 1 - 2 ^ (- 53) -> 3 <= Double.add 3 (Double.mul r 2) <= 5.
Proof.
  intros [H0 H1].
  assert (H1' : r <= 1).
  { apply Qle_trans with (1 - 2 ^ (- 53)); [exact H1 |].
    vm_compute. discriminate. }
  assert (Hm : inject_Z 0 <= Double.mul r 2 <= inject_Z 2).
  { unfold Double.mul. apply round_between; [lia | lia |].
    change (inject_Z 0) with 0. change (inject_Z 2) with 2. split; lra. }
  change (inject_Z 0) with 0 in Hm. change (inject_Z 2) with 2 in Hm.
  unfold Double.add.
  apply (round_between (3 + Double.mul r 2) 3 5); [lia | lia |].
  change (inject_Z 3) with 3. change (inject_Z 5) with 5. split; lra.
Qed.

(** What the simulated data are sure of. *)
Lemma simulated_signals (name address : string) (random : Random) :
  unit_draws random ->
  exists apiData : Api.Data,
    fetchSEOData name address random = Resolved apiData /\
    (0 <= Api.googlePosition (Api.searchRanking apiData) <= 99)%Z /\
    3 <= Api.rating (Api.google (Api.reviews apiData)) <= 5 /\
    3 <= Api.rating (Api.yelp (Api.reviews apiData)) <= 5 /\
    (0 <= Api.count (Api.google (Api.reviews apiData)) <= 499)%Z /\
    (0 <= Api.count (Api.yelp (Api.reviews apiData)) <= 199)%Z.
Proof.
  intro Hr. eexists. split; [reflexivity |].
  cbn [Api.searchRanking Api.googlePosition Api.reviews Api.google Api.yelp
       Api.rating Api.count].
  pose proof (fun n => unit_draw_bounds random n Hr) as Hb.
  split; [apply (floor_draw (random 0%nat) 100 6 (Hb _)); lia |].
  split; [apply simulated_rating, Hb |].
  split; [apply simulated_rating, Hb |].
  split; [apply (floor_draw (random 16%nat) 500 8 (Hb _)); lia
         | apply (floor_draw (random 18%nat) 200 7 (Hb _)); lia].
Qed.

Lemma half_draws_unit : unit_draws half_draws.
Proof.
  intro n. unfold half_draws. split; [vm_compute; reflexivity |].
  split; lra.
Qed.

(** X8.  Whatever the draws, the simulated call resolves, and its data are
    within these bounds: a position from 0 to 99, monthly searches from 0 to
    9999, every competitor at most 4 places behind its starting rank,
    ratings from 3 to 5, at most 499 reviews at google and 199 at yelp, and
    followers below 10000, 5000, 3000 and 1000. *)
Theorem fetchSEOData_bounds (name address : string) (random : Random) :
  unit_draws random ->
  exists apiData : Api.Data,
    fetchSEOData name address random = Resolved apiData /\
    (0 <= Api.googlePosition (Api.searchRanking apiData) <= 99)%Z /\
    (0 <= Api.monthlySearches (Api.searchRanking apiData) <= 9999)%Z /\
    Forall2 (fun base rank => (base <= rank <= base + 4)%Z)
      competitorBase (Api.competitorRanks (Api.searchRanking apiData)) /\
    3 <= Api.rating (Api.google (Api.reviews apiData)) <= 5 /\
    3 <= Api.rating (Api.yelp (Api.reviews apiData)) <= 5 /\
    (0 <= Api.count (Api.google (Api.reviews apiData)) <= 499)%Z /\
    (0 <= Api.count (Api.yelp (Api.reviews apiData)) <= 199)%Z /\
    (0 <= Api.followers (Api.facebook (Api.socialMedia apiData)) <= 9999)%Z /\
    (0 <= Api.followers (Api.instagram (Api.socialMedia apiData)) <= 4999)%Z
    /\
    (0 <= Api.followers (Api.twitter (Api.socialMedia apiData)) <= 2999)%Z /\
    (0 <= Api.followers (Api.linkedin (Api.socialMedia apiData)) <= 999)%Z.
Proof.
  intro Hr. eexists. split; [reflexivity |].
  cbn [Api.searchRanking Api.googlePosition Api.monthlySearches
       Api.competitorRanks Api.reviews Api.google Api.yelp Api.rating
       Api.count Api.socialMedia Api.facebook Api.instagram Api.twitter
       Api.linkedin Api.followers].
  pose proof (fun n => unit_draw_bounds random n Hr) as Hb.
  split; [apply (floor_draw (random 0%nat) 100 6 (Hb _)); lia |].
  split; [apply (floor_draw (random 1%nat) 10000 13 (Hb _)); lia |].
  split; [now apply shift_ranks_bounds |].
  split; [apply simulated_rating, Hb |].
  split; [apply simulated_rating, Hb |].
  split; [apply (floor_draw (random 16%nat) 500 8 (Hb _)); lia |].
  split; [apply (floor_draw (random 18%nat) 200 7 (Hb _)); lia |].
  split; [apply (floor_draw (random 8%nat) 10000 13 (Hb _)); lia |].
  split; [apply (floor_draw (random 10%nat) 5000 12 (Hb _)); lia |].
  split; [apply (floor_draw (random 12%nat) 3000 11 (Hb _)); lia
         | apply (floor_draw (random 14%nat) 1000 9 (Hb _)); lia].
Qed.

Lemma fetchSEOData_bounds_witness :
  unit_draws half_draws /\
  exists apiData : Api.Data,
    fetchSEOData sample_name sample_address half_draws = Resolved apiData /\
    (0 <= Api.googlePosition (Api.searchRanking apiData) <= 99)%Z.
Proof.
  split; [exact half_draws_unit |].
  destruct (fetchSEOData_bounds sample_name sample_address half_draws
              half_draws_unit) as (apiData & E & Hp & _).
  exists apiData. split; [exact E | exact Hp].
Defined.

(** At the edges of the draws: 0.6 times 5 is 3 in doubles, 0.018 times
    500 is 9, and the draw 0.4 is not greater than the threshold 0.4. *)
Example fetchSEOData_at_the_edges :
  Math_floor (Double.mul (Double.round (6 # 10)) 5) = 3%Z /\
  Math_floor (Double.mul (Double.round (18 # 1000)) 500) = 9%Z /\
  ltb (Double.round (4 # 10)) (Double.round (4 # 10)) = false.
Proof. repeat split; vm_compute; reflexivity. Qed.

(** X9.  With the simulated data the click handler never ends in the
    error: it stores a score and its recommendations, and that score has a
    ranking score of at least 1, a local score of at least 30, a review
    score of at least 60 and a total from 13 to 73. *)
Theorem calculateSeoScore_simulated (st : HomeState) (random : Random) :
  unit_draws random ->
  let st' :=
    calculateSeoScore st
      (fetchSEOData (_businessName st) (_businessAddress st) random) in
  error st' = None /\
  exists s : SeoScore,
    seoScore st' = Some s /\
    recommendations st' = generateRecommendations s /\
    1 <= googleRanking (details s) /\
    30 <= localSEO (details s) /\
    60 <= onlineReviews (details s) /\
    (13 <= total s <= 73)%Z.
Proof.
  intros Hr st'. subst st'.
  destruct (simulated_signals (_businessName st) (_businessAddress st)
              random Hr) as (apiData & E & Hp & Hg & Hy & Hcg & Hcy).
  rewrite E. split; [reflexivity |].
  exists (score_of (_businessName st) (_businessAddress st) apiData).
  split; [reflexivity |]. split; [reflexivity |].
  set (name := _businessName st). set (address := _businessAddress st).
  assert (Hrank : 1 <= googleRanking (details (score_of name address apiData))
                  <= 100).
  { split.
    - rewrite googleRanking_eq. unfold Math_max.
      apply Qle_trans
        with (100
              - inject_Z (Api.googlePosition (Api.searchRanking apiData)));
        [| apply Q.le_max_r].
      destruct Hp as [_ Hp]. rewrite inject_Z_le in Hp.
      change (inject_Z 99) with 99 in Hp. lra.
    - apply googleRanking_in_range. lia. }
  assert (Hlocal : 30 <= localSEO (details (score_of name address apiData))
                   <= 100).
  { rewrite localSEO_eq. unfold Math_min.
    set (g := Api.rating (Api.google (Api.reviews apiData))) in *.
    set (y := Api.rating (Api.yelp (Api.reviews apiData))) in *.
    split; [| apply Q.le_min_l].
    apply Q.min_glb; [lra |].
    assert (H1 : inject_Z 6 <= Double.add g y <= inject_Z 10).
    { unfold Double.add. apply round_between; [lia | lia |].
      change (inject_Z 6) with 6. change (inject_Z 10) with 10.
      split; lra. }
    change (inject_Z 6) with 6 in H1. change (inject_Z 10) with 10 in H1.
    assert (H2 : inject_Z 3 <= Double.div (Double.add g y) 2 <= inject_Z 5).
    { unfold Double.div at 1. apply round_between; [lia | lia |].
      change (inject_Z 3) with 3. change (inject_Z 5) with 5.
      unfold Qdiv. change (/ 2) with (1 # 2). split; lra. }
    change (inject_Z 3) with 3 in H2. change (inject_Z 5) with 5 in H2.
    set (avg := Double.div (Double.add g y) 2) in *.
    assert (H3 : inject_Z 30 <= Double.mul avg 10 <= inject_Z 50).
    { unfold Double.mul. apply round_between; [lia | lia |].
      change (inject_Z 30) with 30. change (inject_Z 50) with 50.
      split; lra. }
    assert (H4 : inject_Z (0 + 0)
                 <= Double.add
                      (inject_Z (Api.count (Api.google (Api.reviews apiData))))
                      (inject_Z (Api.count (Api.yelp (Api.reviews apiData))))
                 <= inject_Z (499 + 199)).
    { apply add_between; try lia; rewrite <- !inject_Z_le; lia. }
    cbn [Z.add Pos.add Pos.succ Pos.add_carry] in H4.
    change (inject_Z 0) with 0 in H4. change (inject_Z 698) with 698 in H4.
    set (tot := Double.add _ _) in H4 |- *.
    assert (H5 : inject_Z 0 <= Double.div tot 10 <= inject_Z 70).
    { unfold Double.div. apply round_between; [lia | lia |].
      change (inject_Z 0) with 0. change (inject_Z 70) with 70.
      unfold Qdiv. change (/ 10) with (1 # 10). split; lra. }
    assert (H6 : inject_Z (30 + 0)
                 <= Double.add (Double.mul avg 10) (Double.div tot 10)
                 <= inject_Z (50 + 70)).
    { apply add_between; try lia; assumption. }
    apply H6. }
  assert (Hrev : 60 <= onlineReviews
                         (details (score_of name address apiData)) <= 100).
  { rewrite onlineReviews_eq. unfold Math_min.
    split; [| apply Q.le_min_l].
    apply Q.min_glb; [lra |].
    pose proof (review_half _ Hg) as Hhg. pose proof (review_half _ Hy) as Hhy.
    assert (H6 : inject_Z (30 + 30)
                 <= Double.add
                      (Double.mul
                         (Double.div
                            (Api.rating (Api.google (Api.reviews apiData))) 5)
                         50)
                      (Double.mul
                         (Double.div
                            (Api.rating (Api.yelp (Api.reviews apiData))) 5)
                         50)
                 <= inject_Z (50 + 50)).
    { apply add_between; try lia; assumption. }
    apply H6. }
  split; [apply Hrank |]. split; [apply Hlocal |]. split; [apply Hrev |].
  split; [| apply total_ceiling; lia].
  rewrite score_of_total.
  rewrite <- (Math_round_Z 13). apply Math_round_le.
  pose proof (nameLength_in_range name address apiData) as Hn.
  pose proof (addressCompleteness_in_range name address apiData) as Ha.
  pose proof (keywordOptimization_in_range name address apiData) as Hk.
  pose proof (socialMediaPresence_in_range name address apiData) as Hs.
  destruct (double_sum_between (details (score_of name address apiData))
              0 100 0 100 0 100 1 100 0 100 30 100 60 100
              ltac:(lia) ltac:(lia) Hn Ha Hk Hrank Hs Hlocal Hrev)
    as [Hsum0 Hsum1].
  cbn [Z.add Pos.add Pos.succ Pos.add_carry] in Hsum0, Hsum1.
  change (inject_Z 91) with 91 in Hsum0.
  change (inject_Z 700) with 700 in Hsum1.
  unfold Double.div.
  apply (round_between _ 13 100); [lia | lia |].
  change (inject_Z 13) with 13. change (inject_Z 100) with 100.
  unfold Qdiv. change (/ 7) with (1 # 7). split; lra.
Qed.

Lemma calculateSeoScore_simulated_witness :
  unit_draws half_draws /\
  error
    (calculateSeoScore sample_state
       (fetchSEOData (_businessName sample_state)
          (_businessAddress sample_state) half_draws)) = None.
Proof.
  split; [exact half_draws_unit |].
  apply (calculateSeoScore_simulated sample_state half_draws).
  exact half_draws_unit.
Defined.

(** ** The stars *)

Lemma star_lit (k : Z) (rating : Q) :
  Qle_bool (inject_Z k) rating = (k <=? Qfloor rating)%Z.
Proof.
  destruct (Z.leb_spec k (Qfloor rating)) as [H | H].
  - apply Qle_bool_iff.
    apply Qle_trans with (inject_Z (Qfloor rating)); [| apply Qfloor_le].
    rewrite <- inject_Z_le. exact H.
  - destruct (Qle_bool (inject_Z k) rating) eqn:E; [| reflexivity].
    apply Qle_bool_iff, Qfloor_resp_le in E.
    rewrite Qfloor_Z in E. lia.
Qed.

(** X10.  The yellow stars of a rating come first and there are as many of
    them as the rating has whole units, none below 1 and five from 5 on. *)
Theorem stars_whole_units (rating : Q) :
  let n := Z.to_nat (Z.min 5 (Z.max 0 (Qfloor rating))) in
  stars rating = (repeat true n ++ repeat false (5 - n))%list.
Proof.
  unfold stars. cbn [map]. rewrite !star_lit.
  set (f := Qfloor rating).
  destruct (Z.leb_spec 1 f); destruct (Z.leb_spec 2 f);
    destruct (Z.leb_spec 3 f); destruct (Z.leb_spec 4 f);
    destruct (Z.leb_spec 5 f); try lia;
    first
      [ replace (Z.min 5 (Z.max 0 f)) with 0%Z by lia
      | replace (Z.min 5 (Z.max 0 f)) with 1%Z by lia
      | replace (Z.min 5 (Z.max 0 f)) with 2%Z by lia
      | replace (Z.min 5 (Z.max 0 f)) with 3%Z by lia
      | replace (Z.min 5 (Z.max 0 f)) with 4%Z by lia
      | replace (Z.min 5 (Z.max 0 f)) with 5%Z by lia ];
    reflexivity.
Qed.

(** A rating of four and a half shows four stars. *)
Example stars_sample : stars (9 # 2) = [true; true; true; true; false].
Proof. reflexivity. Qed.

(** ** The ring *)

Lemma nameLength_at_most_30 (name address : string) (apiData : Api.Data) :
  ~ (31 <= length name <= 39)%Z ->
  nameLength (details (score_of name address apiData)) <= 30.
Proof.
  intro Hout. rewrite nameLength_closed_form.
  change 30 with (inject_Z 30). rewrite <- inject_Z_le.
  unfold name_score.
  destruct (Z.leb_spec (length name) 0); [lia |].
  destruct (Z.ltb_spec (length name) 15); [lia |].
  destruct (Z.leb_spec (length name) 30); [lia |].
  destruct (name_score_long_bounds (length name)) as (_ & Hiff & _); [lia |].
  destruct (Z.le_gt_cases 31 ((2400 + length name) / (2 * length name)))
    as [H31 | H31]; [| lia].
  apply Hiff in H31. lia.
Qed.

(** One arc: the share of the score in the ring, within [285 * 2 ^ -44],
    and not negative. *)
Lemma arc_length (x : Q) :
  0 <= x <= 100 ->
  0 <= Double.mul (Double.div x 100) 283 /\
  - (285 # 17592186044416)
  <= Double.mul (Double.div x 100) 283 - x * (283 # 100)
  <= 285 # 17592186044416.
Proof.
  intros [H0 H1].
  assert (Hu : - (1 # 17592186044416) <= Double.div x 100 - x * (1 # 100)
               <= 1 # 17592186044416).
  { unfold Double.div, Qdiv. change (/ 100) with (1 # 100).
    apply round_error_1024. apply Qabs_Qlt_condition. split; lra. }
  assert (Hu0 : 0 <= Double.div x 100)
    by (apply div_nonneg; [exact H0 | reflexivity]).
  set (u := Double.div x 100) in *.
  assert (Hd : - (1 # 17592186044416) <= Double.mul u 283 - u * 283
               <= 1 # 17592186044416).
  { unfold Double.mul. apply round_error_1024.
    apply Qabs_Qlt_condition. split; lra. }
  split; [apply mul_nonneg; [exact Hu0 | lra] |].
  split; lra.
Qed.

(** The offset of an arc that starts after the scores [x]: minus their
    share of the ring, within [285 * 2 ^ -44]. *)
Lemma arc_offset (x : Q) :
  0 <= x <= 200 ->
  - (285 # 17592186044416)
  <= Double.mul (- Double.div x 100) 283 + x * (283 # 100)
  <= 285 # 17592186044416.
Proof.
  intros [H0 H1].
  assert (Hu : - (1 # 17592186044416) <= Double.div x 100 - x * (1 # 100)
               <= 1 # 17592186044416).
  { unfold Double.div, Qdiv. change (/ 100) with (1 # 100).
    apply round_error_1024. apply Qabs_Qlt_condition. split; lra. }
  set (u := Double.div x 100) in *.
  assert (Hd : - (1 # 17592186044416) <= Double.mul (- u) 283 - - u * 283
               <= 1 # 17592186044416).
  { unfold Double.mul. apply round_error_1024.
    apply Qabs_Qlt_condition. split; lra. }
  split; lra.
Qed.

(** X11.  For every computed score the three arcs of the ring have lengths
    that are not negative, and each follows the one before without a gap
    wider than the rounding of doubles, [2 ^ -30]: its offset is minus the
    sum of the lengths before it.  For a name whose length is not one of 31
    to 39 the lengths add up to the ring, 283, at most, that rounding
    apart; a name of 31 code units with an address of four segments
    overruns the ring by more than 25. *)
Theorem score_ring_fits (name address : string) (apiData : Api.Data) :
  let arcs := score_ring (details (score_of name address apiData)) in
  (exists a1 a2 a3 : Arc,
     arcs = [a1; a2; a3] /\
     0 <= dash a1 /\ 0 <= dash a2 /\ 0 <= dash a3 /\
     dashoffset a1 == 0 /\
     Qabs (dashoffset a2 + dash a1) <= ring_slack /\
     Qabs (dashoffset a3 + (dash a1 + dash a2)) <= ring_slack) /\
  (~ (31 <= length name <= 39)%Z -> ring_used arcs <= ring_length + ring_slack)
  /\
  ring_length + 25
  < ring_used (score_ring (details (score_of long_name sample_address
                                       best_api))).
Proof.
  intro arcs. subst arcs.
  pose proof (keywordOptimization_at_most_30 name address apiData) as Hk.
  pose proof (addressCompleteness_at_most_40 name address apiData) as Ha.
  destruct (nameLength_in_range name address apiData) as [Hn0 Hn1].
  destruct (addressCompleteness_in_range name address apiData) as [Ha0 Ha1].
  destruct (keywordOptimization_in_range name address apiData) as [Hk0 Hk1].
  set (d := details (score_of name address apiData)) in *.
  unfold score_ring, ring_used, ring_length.
  set (n := nameLength d) in *. set (a := addressCompleteness d) in *.
  set (k := keywordOptimization d) in *.
  destruct (arc_length n (conj Hn0 Hn1)) as [Hd1 [Hd1a Hd1b]].
  destruct (arc_length a (conj Ha0 Ha1)) as [Hd2 [Hd2a Hd2b]].
  destruct (arc_length k (conj Hk0 Hk1)) as [Hd3 [Hd3a Hd3b]].
  assert (Hw : inject_Z (0 + 0) <= Double.add n a <= inject_Z (100 + 100)).
  { apply add_between; try lia; split; assumption. }
  cbn [Z.add Pos.add Pos.succ Pos.add_carry] in Hw.
  change (inject_Z 0) with 0 in Hw. change (inject_Z 200) with 200 in Hw.
  assert (Hwe : - (1 # 17592186044416) <= Double.add n a - (n + a)
                <= 1 # 17592186044416).
  { unfold Double.add. apply round_error_1024.
    apply Qabs_Qlt_condition. split; lra. }
  destruct (arc_offset n ltac:(split; lra)) as [Ho2a Ho2b].
  destruct (arc_offset (Double.add n a) Hw) as [Ho3a Ho3b].
  set (w := Double.add n a) in *.
  set (dash1 := Double.mul (Double.div n 100) 283) in *.
  set (dash2 := Double.mul (Double.div a 100) 283) in *.
  set (dash3 := Double.mul (Double.div k 100) 283) in *.
  set (off2 := Double.mul (- Double.div n 100) 283) in *.
  set (off3 := Double.mul (- Double.div w 100) 283) in *.
  split; [| split].
  - do 3 eexists. split; [reflexivity |]. cbn [dash dashoffset].
    fold dash1 dash2 dash3 off2 off3.
    repeat (split; [assumption |]).
    split; [reflexivity |].
    change ring_slack with (1 # 1073741824).
    split; apply Qabs_Qle_condition; split; lra.
  - intro Hout.
    pose proof (nameLength_at_most_30 name address apiData Hout) as Hn30.
    fold d n in Hn30.
    cbn [fold_right dash]. fold dash1 dash2 dash3.
    change ring_slack with (1 # 1073741824). lra.
  - vm_compute. reflexivity.
Qed.

Lemma score_ring_fits_witness :
  ~ (31 <= length sample_name <= 39)%Z /\
  ring_used
    (score_ring (details (score_of sample_name sample_address sample_api)))
  <= ring_length + ring_slack.
Proof.
  split; [vm_compute; intros [H _]; apply H; reflexivity |].
  apply (score_ring_fits sample_name sample_address sample_api).
  vm_compute; intros [H _]; apply H; reflexivity.
Defined.

(** In doubles the arc of a score of 30 is the double below 84.9. *)
Example score_ring_sample :
  Double.mul (Double.div 30 100) 283
  == 5974306380683673 # 70368744177664 /\
  Double.mul (Double.div 30 100) 283 < 849 # 10.
Proof. split; vm_compute; reflexivity. Qed.

(** ** The session *)

Lemma falsy_empty (s : string) : falsy s = false <-> s <> "".
Proof.
  destruct s; cbn [falsy]; split; intro H;
    try discriminate; try reflexivity; congruence.
Qed.

Lemma button_enabled (st : HomeState) :
  button_disabled st = false <->
  isCalculating st = false /\
  _businessName st <> "" /\ _businessAddress st <> "".
Proof.
  unfold button_disabled.
  rewrite !orb_false_iff, !falsy_empty. tauto.
Qed.

Lemma initial_session_ok : session_ok initial_session.
Proof.
  unfold session_ok, initial_session, initial_state.
  cbn [rendered running isCalculating seoScore recommendations error].
  repeat split; try discriminate; try congruence. now left.
Qed.

Lemma handle_ok (e : Event) (ss : Session) :
  session_ok ss -> session_ok (handle e ss).
Proof.
  intros (Hflag & Hclosure & Hscore & Herr).
  destruct e as [v | v | | fetched]; cbn [handle].
  - (* the name changes *)
    unfold session_ok.
    cbn [rendered running setBusinessName isCalculating seoScore
         recommendations error].
    auto.
  - (* the address changes *)
    unfold session_ok.
    cbn [rendered running setBusinessAddress isCalculating seoScore
         recommendations error].
    auto.
  - (* a click *)
    destruct (button_disabled (rendered ss)) eqn:E;
      [unfold session_ok; auto |].
    apply button_enabled in E as (_ & Hname & Haddress).
    unfold session_ok.
    cbn [rendered running setError setIsCalculating isCalculating seoScore
         recommendations error].
    split; [split; [discriminate | reflexivity] |].
    split; [intros closure [= <-]; auto |].
    split; [exact Hscore | now left].
  - (* the promise settles *)
    destruct (running ss) as [closure |] eqn:E;
      [| unfold session_ok; rewrite E; auto].
    destruct (Hclosure closure eq_refl) as [Hname Haddress].
    destruct fetched as [apiData | reason]; cbn [calculateSEOMetrics];
      unfold session_ok;
      cbn [rendered running setError setIsCalculating setSeoScore
           setRecommendations isCalculating seoScore recommendations error].
    + split; [split; [discriminate | congruence] |].
      split; [discriminate |].
      split; [| exact Herr].
      split; [reflexivity |].
      exists (_businessName closure), (_businessAddress closure), apiData.
      auto.
    + split; [split; [discriminate | congruence] |].
      split; [discriminate |].
      split; [exact Hscore | now right].
Qed.

Lemma run_ok (events : list Event) (ss : Session) :
  session_ok ss -> session_ok (run events ss).
Proof.
  revert ss. unfold run.
  induction events as [| e events IH]; intros ss H; cbn [fold_left].
  - exact H.
  - apply IH, handle_ok, H.
Qed.

Lemma run_app (events1 events2 : list Event) (ss : Session) :
  run (events1 ++ events2) ss = run events2 (run events1 ss).
Proof. unfold run. apply fold_left_app. Qed.

(** X12.  Whatever happens on the page, the flag [isCalculating] is up
    exactly while a handler waits for its data, and as long as it is up a
    click changes nothing: no second calculation starts beside the first. *)
Theorem one_calculation_at_a_time (events : list Event) :
  let ss := run events initial_session in
  (isCalculating (rendered ss) = true <-> running ss <> None) /\
  (running ss <> None -> handle Click ss = ss).
Proof.
  intro ss.
  destruct (run_ok events initial_session initial_session_ok)
    as (Hflag & _). fold ss in Hflag.
  split; [exact Hflag |].
  intro Hrun. apply Hflag in Hrun.
  cbn [handle]. unfold button_disabled. rewrite Hrun. reflexivity.
Qed.

(** X13.  Whatever happens on the page, the recommendations on the screen
    are those of the score on the screen, and there are none while there is
    no score. *)
Theorem recommendations_follow_score (events : list Event) :
  let st := rendered (run events initial_session) in
  match seoScore st with
  | None => recommendations st = []
  | Some s => recommendations st = generateRecommendations s
  end.
Proof.
  intro st.
  destruct (run_ok events initial_session initial_session_ok)
    as (_ & _ & Hscore & _). fold st in Hscore.
  destruct (seoScore st); [apply Hscore | exact Hscore].
Qed.

Lemma score_from_form_floor (s : SeoScore) :
  score_from_form s ->
  10 <= keywordOptimization (details s) /\
  10 <= addressCompleteness (details s).
Proof.
  intros (name & address & apiData & Hname & Haddress & ->).
  rewrite keywordOptimization_cases, addressCompleteness_eq.
  apply length_pos, Z.ltb_lt in Hname, Haddress.
  rewrite Hname, Haddress. unfold Math_min.
  rewrite !split_size.
  pose proof (occurrences_nonneg " " (toLowerCase name)) as Hs.
  pose proof (occurrences_nonneg "," address) as Hc.
  rewrite !inject_Z_plus.
  rewrite inject_Z_le in Hs, Hc. change (inject_Z 0) with 0 in Hs, Hc.
  change (inject_Z 1) with 1.
  split; apply Q.min_glb; lra.
Qed.

(** X14.  Every score that reaches the screen was computed for a name and
    an address that were not empty, because the button passes no click on
    before both are filled in; so its keyword score and its address score
    are at least 10. *)
Theorem stored_score_from_form (events : list Event) (s : SeoScore) :
  seoScore (rendered (run events initial_session)) = Some s ->
  score_from_form s /\
  10 <= keywordOptimization (details s) /\
  10 <= addressCompleteness (details s).
Proof.
  intro E.
  destruct (run_ok events initial_session initial_session_ok)
    as (_ & _ & Hscore & _).
  rewrite E in Hscore. destruct Hscore as [_ Hform].
  split; [exact Hform | now apply score_from_form_floor].
Qed.

Lemma stored_score_from_form_witness :
  seoScore (rendered (run sample_events initial_session))
  = Some (score_of sample_name sample_address sample_api) /\
  10 <= keywordOptimization
          (details (score_of sample_name sample_address sample_api)).
Proof.
  split; [reflexivity |].
  apply (stored_score_from_form sample_events
           (score_of sample_name sample_address sample_api)).
  reflexivity.
Defined.

Lemma handle_keeps_score (e : Event) (ss : Session) :
  seoScore (rendered ss) <> None ->
  seoScore (rendered (handle e ss)) <> None.
Proof.
  intro H. destruct e as [v | v | | fetched]; cbn [handle].
  - exact H.
  - exact H.
  - destruct (button_disabled (rendered ss)); exact H.
  - destruct (running ss) as [closure |]; [| exact H].
    destruct (calculateSEOMetrics closure fetched);
      cbn [rendered setIsCalculating setRecommendations setSeoScore setError
           seoScore]; [discriminate | exact H].
Qed.

(** X15.  A score on the screen never goes away: no edit, click, failure
    or later result leaves the page without one. *)
Theorem score_stays (events : list Event) (ss : Session) :
  seoScore (rendered ss) <> None ->
  seoScore (rendered (run events ss)) <> None.
Proof.
  revert ss. unfold run.
  induction events as [| e events IH]; intros ss H; cbn [fold_left].
  - exact H.
  - apply IH, handle_keeps_score, H.
Qed.

Lemma score_stays_witness :
  seoScore (rendered (run sample_events initial_session)) <> None /\
  seoScore
    (rendered
       (run [Click; Settle (Rejected "offline")]
          (run sample_events initial_session))) <> None.
Proof.
  split; [discriminate |].
  apply (score_stays [Click; Settle (Rejected "offline")]
           (run sample_events initial_session)).
  discriminate.
Defined.

(** X16.  A click on the enabled button and the arrival of its data, one
    right after the other, have the effect of [calculateSeoScore]. *)
Theorem click_then_settle (st : HomeState) (fetched : Settled Api.Data) :
  button_disabled st = false ->
  run [Click; Settle fetched] {| rendered := st; running := None |}
  = {| rendered := calculateSeoScore st fetched; running := None |}.
Proof.
  intro E. unfold run. cbn [fold_left handle rendered running].
  rewrite E. cbn [rendered running].
  unfold calculateSeoScore.
  destruct (calculateSEOMetrics st fetched); reflexivity.
Qed.

Lemma click_then_settle_witness :
  button_disabled sample_state = false /\
  run [Click; Settle (Resolved sample_api)]
    {| rendered := sample_state; running := None |}
  = {| rendered := calculateSeoScore sample_state (Resolved sample_api);
       running := None |}.
Proof.
  split; [reflexivity |].
  apply (click_then_settle sample_state (Resolved sample_api)).
  reflexivity.
Defined.

Lemma edits_keep (edits : list Event) (ss : Session) :
  forallb is_edit edits = true ->
  running (run edits ss) = running ss /\
  seoScore (rendered (run edits ss)) = seoScore (rendered ss) /\
  recommendations (rendered (run edits ss)) = recommendations (rendered ss)
  /\
  isCalculating (rendered (run edits ss)) = isCalculating (rendered ss) /\
  error (rendered (run edits ss)) = error (rendered ss).
Proof.
  revert ss. unfold run.
  induction edits as [| e edits IH]; intros ss H; cbn [fold_left].
  - repeat split.
  - cbn [forallb] in H. apply andb_true_iff in H as [He Hrest].
    destruct (IH (handle e ss) Hrest) as (H1 & H2 & H3 & H4 & H5).
    rewrite H1, H2, H3, H4, H5.
    destruct e; try discriminate He; repeat split.
Qed.

(** X17.  The score that arrives is the score of the name and the address
    as they were at the click: what is typed into the form while the
    handler waits does not enter it, though the form shows it. *)
Theorem score_of_the_click
    (st : HomeState) (edits : list Event) (apiData : Api.Data) :
  button_disabled st = false ->
  forallb is_edit edits = true ->
  let ss :=
    run (Click :: edits ++ [Settle (Resolved apiData)])
      {| rendered := st; running := None |} in
  seoScore (rendered ss)
  = Some (score_of (_businessName st) (_businessAddress st) apiData) /\
  running ss = None /\
  isCalculating (rendered ss) = false.
Proof.
  intros E Hedits ss. subst ss.
  change (Click :: edits ++ [Settle (Resolved apiData)])
    with ([Click] ++ edits ++ [Settle (Resolved apiData)])%list.
  rewrite !run_app.
  set (ss1 := run [Click] {| rendered := st; running := None |}).
  assert (Hrun : running ss1 = Some st).
  { subst ss1. unfold run. cbn [fold_left handle rendered]. rewrite E.
    reflexivity. }
  destruct (edits_keep edits ss1 Hedits) as (H1 & _).
  rewrite Hrun in H1.
  assert (Hlast : run [Settle (Resolved apiData)] (run edits ss1)
                  = handle (Settle (Resolved apiData)) (run edits ss1))
    by reflexivity.
  rewrite Hlast. cbn [handle]. rewrite H1.
  cbn [calculateSEOMetrics rendered running setIsCalculating
       setRecommendations setSeoScore seoScore isCalculating].
  repeat split.
Qed.

Lemma score_of_the_click_witness :
  button_disabled sample_state = false /\
  forallb is_edit [ChangeName long_name] = true /\
  seoScore
    (rendered
       (run (Click :: [ChangeName long_name]
               ++ [Settle (Resolved sample_api)])
          {| rendered := sample_state; running := None |}))
  = Some (score_of sample_name sample_address sample_api).
Proof.
  split; [reflexivity |]. split; [reflexivity |].
  apply (score_of_the_click sample_state [ChangeName long_name] sample_api);
    reflexivity.
Defined.
